(** * router-sync: the policy reconciliation engine and its control loop

    A shallow embedding of [internal/router/manager.go],
    [internal/models/models.go], [internal/nats/client.go] (the watch
    loops) and the sync service, together with the parts of the Go
    standard library ([strings], [strconv], [net]) the engine relies on.

    Go strings are byte strings: they are modelled as [string] (one
    [ascii] per byte).  Go [int] values are modelled as [Z]. *)

From Stdlib Require Import ZArith List String Ascii Bool Lia.
From stdpp Require Import base option list strings gmap.

Open Scope string_scope.
Open Scope list_scope.
Open Scope Z_scope.

(* ===================================================================== *)
(** * Go byte strings *)
(* ===================================================================== *)

Definition byteOf (c : ascii) : Z := Z.of_nat (nat_of_ascii c).
Definition charOf (b : Z) : ascii := ascii_of_nat (Z.to_nat b).

Fixpoint bytesOf (s : string) : list Z :=
  match s with
  | EmptyString => []
  | String c s' => byteOf c :: bytesOf s'
  end.

Fixpoint revOnto (s acc : string) : string :=
  match s with
  | EmptyString => acc
  | String c s' => revOnto s' (String c acc)
  end.

Definition strRev (s : string) : string := revOnto s EmptyString.

Definition isEmpty (s : string) : bool :=
  match s with EmptyString => true | _ => false end.

(** The line feed and the tab, which have no escape in a string literal. *)
Definition newline : string := String (ascii_of_nat 10) EmptyString.
Definition tab : string := String (ascii_of_nat 9) EmptyString.

(** Package [strings]. *)
Module gostrings.

Fixpoint HasPrefix (s prefix : string) : bool :=
  match prefix, s with
  | EmptyString, _ => true
  | String _ _, EmptyString => false
  | String p prefix', String c s' => Ascii.eqb c p && HasPrefix s' prefix'
  end.

Fixpoint Contains (s substr : string) : bool :=
  HasPrefix s substr
  || match s with
     | EmptyString => false
     | String _ s' => Contains s' substr
     end.

Fixpoint TrimSuffix (s suffix : string) : string :=
  if String.eqb s suffix then EmptyString
  else match s with
       | EmptyString => EmptyString
       | String c s' => String c (TrimSuffix s' suffix)
       end.

(** [strings.Split(s, sep)] for a non-empty separator.  [skip] counts the
    bytes of a separator that was just matched and is still to be passed
    over.  (With an empty separator Go explodes the string into UTF-8
    sequences; the engine only splits on ["\n"] and ["/"], and for an
    empty separator this function yields the single piece [s].) *)
Fixpoint splitAux (sep : string) (skip : nat) (cur s : string) : list string :=
  match s with
  | EmptyString => [strRev cur]
  | String c s' =>
      match skip with
      | S k => splitAux sep k cur s'
      | O =>
          if negb (isEmpty sep) && HasPrefix s sep
          then strRev cur :: splitAux sep (String.length sep - 1) EmptyString s'
          else splitAux sep 0 (String c cur) s'
      end
  end.

Definition Split (s sep : string) : list string :=
  splitAux sep 0 EmptyString s.

(** White space in the sense of [unicode.IsSpace], recognised on the
    UTF-8 bytes at the head of a byte sequence: the result is the width
    in bytes of the white-space rune found there, [0] when there is none.
    The ASCII ones are tab, LF, VT, FF, CR and space; the others are
    U+0085, U+00A0, U+1680, U+2000..U+200A, U+2028, U+2029, U+202F,
    U+205F and U+3000. *)
Definition isAsciiSpace (b : Z) : bool :=
  ((9 <=? b) && (b <=? 13)) || (b =? 32).

Definition spaceWidth (bs : list Z) : nat :=
  match bs with
  | [] => 0%nat
  | b0 :: rest =>
      if isAsciiSpace b0 then 1%nat
      else match rest with
           | [] => 0%nat
           | b1 :: rest' =>
               if (b0 =? 194) && ((b1 =? 133) || (b1 =? 160)) then 2%nat
               else match rest' with
                    | [] => 0%nat
                    | b2 :: _ =>
                        if (b0 =? 225) && (b1 =? 154) && (b2 =? 128) then 3%nat
                        else if (b0 =? 226) && (b1 =? 128)
                                && (((128 <=? b2) && (b2 <=? 138))
                                    || (b2 =? 168) || (b2 =? 169) || (b2 =? 175))
                             then 3%nat
                        else if (b0 =? 226) && (b1 =? 129) && (b2 =? 159) then 3%nat
                        else if (b0 =? 227) && (b1 =? 128) && (b2 =? 128) then 3%nat
                        else 0%nat
                    end
           end
  end.

(** The same runes read backwards from the end of a string: the argument
    is the reversed byte sequence. *)
Definition spaceWidthRev (rbs : list Z) : nat :=
  match rbs with
  | [] => 0%nat
  | b0 :: rest =>
      if isAsciiSpace b0 then 1%nat
      else match rest with
           | [] => 0%nat
           | b1 :: rest' =>
               if spaceWidth [b1; b0] =? 2 then 2
               else match rest' with
                    | [] => 0
                    | b2 :: _ => if spaceWidth [b2; b1; b0] =? 3 then 3 else 0
                    end
           end
  end%nat.

Fixpoint dropBytes (n : nat) (s : string) : string :=
  match n, s with
  | S k, String _ s' => dropBytes k s'
  | _, _ => s
  end.

(** Strip leading white space; [fuel] bounds the number of runes. *)
Fixpoint trimLeftSpace (fuel : nat) (s : string) : string :=
  match fuel with
  | O => s
  | S k =>
      match spaceWidth (bytesOf s) with
      | O => s
      | w => trimLeftSpace k (dropBytes w s)
      end
  end.

Fixpoint trimLeftSpaceRev (fuel : nat) (r : string) : string :=
  match fuel with
  | O => r
  | S k =>
      match spaceWidthRev (bytesOf r) with
      | O => r
      | w => trimLeftSpaceRev k (dropBytes w r)
      end
  end.

Definition TrimSpace (s : string) : string :=
  let l := trimLeftSpace (String.length s) s in
  strRev (trimLeftSpaceRev (String.length l) (strRev l)).

(** [strings.Fields]: maximal runs of bytes free of white space. *)
Fixpoint fieldsAux (skip : nat) (cur s : string) : list string :=
  match s with
  | EmptyString => if isEmpty cur then [] else [strRev cur]
  | String c s' =>
      match skip with
      | S k => fieldsAux k cur s'
      | O =>
          match spaceWidth (bytesOf s) with
          | O => fieldsAux 0 (String c cur) s'
          | S w =>
              if isEmpty cur then fieldsAux w EmptyString s'
              else strRev cur :: fieldsAux w EmptyString s'
          end
      end
  end.

Definition Fields (s : string) : list string := fieldsAux 0 EmptyString s.

End gostrings.

(** Package [strconv]. *)
Module strconv.

Definition isDigit (c : ascii) : bool :=
  (48 <=? byteOf c) && (byteOf c <=? 57).

Fixpoint allDigits (s : string) : bool :=
  match s with
  | EmptyString => true
  | String c s' => isDigit c && allDigits s'
  end.

Fixpoint decimalValue (acc : Z) (s : string) : Z :=
  match s with
  | EmptyString => acc
  | String c s' => decimalValue (acc * 10 + (byteOf c - 48)) s'
  end.

Definition maxInt64 : Z := 2 ^ 63 - 1.
Definition minInt64 : Z := - 2 ^ 63.

(** [strconv.Atoi] on a 64-bit platform: the value and whether the error
    is [nil].  A syntax error yields [0]; a range error yields the
    nearest representable value. *)
Definition Atoi (s : string) : Z * bool :=
  match s with
  | EmptyString => (0, false)
  | String c s' =>
      let neg := Ascii.eqb c "-" in
      let signed := neg || Ascii.eqb c "+" in
      let digits := if signed then s' else s in
      if isEmpty digits || negb (allDigits digits) then (0, false)
      else
        let v := decimalValue 0 digits in
        if neg then (if 2 ^ 63 <? v then (minInt64, false) else (- v, true))
        else (if 2 ^ 63 <=? v then (maxInt64, false) else (v, true))
  end.

Definition digitChar (d : Z) : ascii := charOf (48 + d).

Fixpoint uitoaAux (fuel : nat) (n : Z) (acc : string) : string :=
  match fuel with
  | O => acc
  | S k =>
      let acc' := String (digitChar (n mod 10)) acc in
      if n <? 10 then acc' else uitoaAux k (n / 10) acc'
  end.

(** Decimal rendering of a non-negative integer. *)
Definition uitoa (n : Z) : string :=
  uitoaAux (S (Z.to_nat (Z.log2 n))) n EmptyString.

Definition Itoa (i : Z) : string :=
  if i <? 0 then String "-" (uitoa (- i)) else uitoa i.

End strconv.

(* ===================================================================== *)
(** * Package [net] (and [net/netip]) *)
(* ===================================================================== *)

Module gonet.

(** [net.IP] and [net.IPMask] are byte slices; [nil] is the empty list. *)
Definition IP := list Z.
Definition IPMask := list Z.

Record IPNet := mkIPNet { IPNet_IP : IP; IPNet_Mask : IPMask }.

(** [netip.Addr]: an IPv4 address, or an IPv6 address with its zone. *)
Inductive Addr :=
| Addr4 (b : list Z)
| Addr6 (b : list Z) (zone : string).

Definition v4InV6Prefix : list Z := [0;0;0;0;0;0;0;0;0;0;255;255].

Definition isSome {A} (o : option A) : bool :=
  match o with Some _ => true | None => false end.
Definition isNone {A} (o : option A) : bool := negb (isSome o).

Definition isDot (c : ascii) : bool := Ascii.eqb c ".".
Definition isColon (c : ascii) : bool := Ascii.eqb c ":".
Definition isPercent (c : ascii) : bool := Ascii.eqb c "%".

(** [netip.parseIPv4]: [fields] holds the octets closed so far ([pos] is
    its length), [first] tells whether the byte is the first of the
    string and [prevDot] whether the byte before it was a dot. *)
Fixpoint parseIPv4Loop (s : string) (first prevDot : bool)
         (fields : list Z) (val : Z) (digLen : nat) : option (list Z) :=
  match s with
  | EmptyString =>
      if (length fields <? 3)%nat then None else Some (fields ++ [val])
  | String c s' =>
      if strconv.isDigit c then
        if (digLen =? 1)%nat && (val =? 0) then None
        else
          let val' := val * 10 + (byteOf c - 48) in
          if 255 <? val' then None
          else parseIPv4Loop s' false false fields val' (S digLen)
      else if isDot c then
        if first || isEmpty s' || prevDot then None
        else if (length fields =? 3)%nat then None
        else parseIPv4Loop s' false true (fields ++ [val]) 0 0%nat
      else None
  end.

Definition parseIPv4 (s : string) : option (list Z) :=
  parseIPv4Loop s true false [] 0 0%nat.

Definition hexValue (c : ascii) : option Z :=
  let b := byteOf c in
  if (48 <=? b) && (b <=? 57) then Some (b - 48)
  else if (97 <=? b) && (b <=? 102) then Some (b - 97 + 10)
  else if (65 <=? b) && (b <=? 70) then Some (b - 65 + 10)
  else None.

(** The hexadecimal group at the head of [s]: its value, the number of
    digits read and the rest of the string. *)
Fixpoint hexGroup (s : string) (acc : Z) (off : nat) : Z * nat * string :=
  match s with
  | EmptyString => (acc, off, s)
  | String c s' =>
      match hexValue c with
      | Some d => hexGroup s' (Z.shiftl acc 4 + d) (S off)
      | None => (acc, off, s)
      end
  end.

Definition startsWith (c : ascii -> bool) (s : string) : bool :=
  match s with
  | String a _ => c a
  | EmptyString => false
  end.

Definition tailOf (s : string) : string :=
  match s with
  | String _ s' => s'
  | EmptyString => EmptyString
  end.

(** The main loop of [netip.parseIPv6]: [ip] holds the [i] bytes written
    so far.  The result is the bytes, the position of the ellipsis and
    the unread rest of the string. *)
Fixpoint parseIPv6Loop (fuel : nat) (s : string) (ip : list Z)
         (ellipsis : option nat) : option (list Z * option nat * string) :=
  match fuel with
  | O => Some (ip, ellipsis, s)
  | S k =>
      if (16 <=? length ip)%nat then Some (ip, ellipsis, s)
      else
        let '(acc, off, rest) := hexGroup s 0 0%nat in
        if (4 <? off)%nat then None
        else if (off =? 0)%nat then None
        else if startsWith isDot rest then
          if isNone ellipsis && negb (length ip =? 12)%nat then None
          else if (16 <? length ip + 4)%nat then None
          else match parseIPv4 s with
               | None => None
               | Some ip4 => Some (ip ++ ip4, ellipsis, EmptyString)
               end
        else
          let ip' := ip ++ [Z.shiftr acc 8; Z.land acc 255] in
          match rest with
          | EmptyString => Some (ip', ellipsis, rest)
          | String c rest1 =>
              if negb (isColon c) then None
              else if isEmpty rest1 then None
              else if startsWith isColon rest1 then
                if isSome ellipsis then None
                else
                  let rest2 := tailOf rest1 in
                  if isEmpty rest2
                  then Some (ip', Some (length ip'), rest2)
                  else parseIPv6Loop k rest2 ip' (Some (length ip'))
              else parseIPv6Loop k rest1 ip' ellipsis
          end
  end.

Fixpoint cutAt (c : ascii -> bool) (s : string) (cur : string)
  : option (string * string) :=
  match s with
  | EmptyString => None
  | String a s' =>
      if c a then Some (strRev cur, s') else cutAt c s' (String a cur)
  end.

Definition parseIPv6 (input : string) : option Addr :=
  let split :=
    match cutAt isPercent input EmptyString with
    | Some (s, zone) => if isEmpty zone then None else Some (s, zone)
    | None => Some (input, EmptyString)
    end in
  match split with
  | None => None
  | Some (s, zone) =>
      let leading := gostrings.HasPrefix s "::" in
      let s1 := if leading then gostrings.dropBytes 2 s else s in
      if leading && isEmpty s1 then Some (Addr6 (repeat 0 16) zone)
      else
        match parseIPv6Loop 9 s1 [] (if leading then Some 0%nat else None) with
        | None => None
        | Some (ip, ellipsis, rest) =>
            if negb (isEmpty rest) then None
            else if (length ip <? 16)%nat then
              match ellipsis with
              | None => None
              | Some e =>
                  Some (Addr6 (take e ip ++ repeat 0 (16 - length ip) ++ drop e ip) zone)
              end
            else if isSome ellipsis then None
            else Some (Addr6 ip zone)
        end
  end.

(** [netip.ParseAddr]: the first of ['.'], [':'] and ['%'] in the string
    selects the parser. *)
Fixpoint parseAddrScan (whole s : string) : option Addr :=
  match s with
  | EmptyString => None
  | String c s' =>
      if isDot c then option_map Addr4 (parseIPv4 whole)
      else if isColon c then parseIPv6 whole
      else if isPercent c then None
      else parseAddrScan whole s'
  end.

Definition ParseAddr (s : string) : option Addr := parseAddrScan s s.

Definition As16 (a : Addr) : list Z :=
  match a with
  | Addr4 b => v4InV6Prefix ++ b
  | Addr6 b _ => b
  end.

Definition Zone (a : Addr) : string :=
  match a with
  | Addr4 _ => EmptyString
  | Addr6 _ z => z
  end.

Definition BitLen (a : Addr) : Z :=
  match a with
  | Addr4 _ => 32
  | Addr6 _ _ => 128
  end.

(** [net.ParseIP]: [None] stands for the [nil] result. *)
Definition ParseIP (s : string) : option IP :=
  match ParseAddr s with
  | Some a => if isEmpty (Zone a) then Some (As16 a) else None
  | None => None
  end.

Definition allZero (l : list Z) : bool := forallb (Z.eqb 0) l.
Definition allFF (l : list Z) : bool := forallb (Z.eqb 255) l.
Definition bytesEqual (a b : list Z) : bool :=
  (length a =? length b)%nat && forallb (fun p => fst p =? snd p) (combine a b).

(** [IP.To4]; the empty list is [nil]. *)
Definition To4 (ip : IP) : IP :=
  if (length ip =? 4)%nat then ip
  else if (length ip =? 16)%nat && allZero (take 10 ip)
          && (nth 10 ip 0 =? 255) && (nth 11 ip 0 =? 255)
       then drop 12 ip
  else [].

Definition CIDRMask (ones bits : Z) : IPMask :=
  if negb (bits =? 32) && negb (bits =? 128) then []
  else if (ones <? 0) || (bits <? ones) then []
  else
    map (fun i =>
           let n := ones - 8 * Z.of_nat i in
           if 8 <=? n then 255
           else if n <=? 0 then 0
           else Z.land (Z.lnot (Z.shiftr 255 n)) 255)
        (seq 0 (Z.to_nat (bits / 8))).

Fixpoint leadingOnes (fuel : nat) (v : Z) (n : Z) : Z * Z :=
  match fuel with
  | O => (n, v)
  | S k =>
      if Z.land v 128 =? 0 then (n, v)
      else leadingOnes k (Z.land (Z.shiftl v 1) 255) (n + 1)
  end.

(** [net.simpleMaskLength]: [-1] when the mask is not a run of ones
    followed by zeros. *)
Fixpoint simpleMaskLengthFrom (n : Z) (mask : IPMask) : Z :=
  match mask with
  | [] => n
  | v :: rest =>
      if v =? 255 then simpleMaskLengthFrom (n + 8) rest
      else
        let '(n', v') := leadingOnes 8 v n in
        if negb (v' =? 0) then -1
        else if allZero rest then n' else -1
  end.

Definition simpleMaskLength (mask : IPMask) : Z := simpleMaskLengthFrom 0 mask.

(** [IPMask.Size]. *)
Definition Size (m : IPMask) : Z * Z :=
  let ones := simpleMaskLength m in
  if ones =? -1 then (0, 0) else (ones, Z.of_nat (length m) * 8).

(** [IP.Mask]. *)
Definition Mask (ip : IP) (mask : IPMask) : IP :=
  let mask1 :=
    if (length mask =? 16)%nat && (length ip =? 4)%nat && allFF (take 12 mask)
    then drop 12 mask else mask in
  let ip1 :=
    if (length mask1 =? 4)%nat && (length ip =? 16)%nat
       && bytesEqual (take 12 ip) v4InV6Prefix
    then drop 12 ip else ip in
  if negb (length ip1 =? length mask1)%nat then []
  else map (fun p => Z.land (fst p) (snd p)) (combine ip1 mask1).

(** [net.dtoi], with [big = 0xFFFFFF]: the value, the number of bytes
    read and the success flag. *)
Fixpoint dtoiLoop (s : string) (n : Z) (i : Z) : Z * Z * bool :=
  match s with
  | EmptyString => if i =? 0 then (0, 0, false) else (n, i, true)
  | String c s' =>
      if strconv.isDigit c then
        let n' := n * 10 + (byteOf c - 48) in
        if 16777215 <=? n' then (16777215, i, false)
        else dtoiLoop s' n' (i + 1)
      else if i =? 0 then (0, 0, false) else (n, i, true)
  end.

Definition dtoi (s : string) : Z * Z * bool := dtoiLoop s 0 0.

(** [net.ParseCIDR]: only the network is returned (the engine discards
    the address). *)
Definition ParseCIDR (s : string) : option IPNet :=
  match cutAt (fun c => Ascii.eqb c "/") s EmptyString with
  | None => None
  | Some (addr, mask) =>
      match ParseAddr addr with
      | None => None
      | Some ipAddr =>
          if negb (isEmpty (Zone ipAddr)) then None
          else
            let '(n, i, ok) := dtoi mask in
            if negb ok || negb (i =? Z.of_nat (String.length mask))
               || (n <? 0) || (BitLen ipAddr <? n)
            then None
            else
              let m := CIDRMask n (BitLen ipAddr) in
              Some (mkIPNet (Mask (As16 ipAddr) m) m)
      end
  end.

Definition hexDigit (d : Z) : ascii :=
  if d <? 10 then charOf (48 + d) else charOf (97 + d - 10).

(** Lower-case hexadecimal without leading zeros, as [netip] prints a
    16-bit group. *)
Definition appendHex (v : Z) : string :=
  let d3 := Z.shiftr v 12 in
  let d2 := Z.land (Z.shiftr v 8) 15 in
  let d1 := Z.land (Z.shiftr v 4) 15 in
  let d0 := Z.land v 15 in
  if 4096 <=? v then String (hexDigit d3) (String (hexDigit d2) (String (hexDigit d1) (String (hexDigit d0) EmptyString)))
  else if 256 <=? v then String (hexDigit d2) (String (hexDigit d1) (String (hexDigit d0) EmptyString))
  else if 16 <=? v then String (hexDigit d1) (String (hexDigit d0) EmptyString)
  else String (hexDigit d0) EmptyString.

(** [hexString] of [net]: two digits per byte. *)
Fixpoint hexString (b : list Z) : string :=
  match b with
  | [] => EmptyString
  | v :: rest =>
      String (hexDigit (Z.shiftr v 4)) (String (hexDigit (Z.land v 15)) (hexString rest))
  end.

Fixpoint groups16 (b : list Z) : list Z :=
  match b with
  | hi :: lo :: rest => (Z.shiftl hi 8 + lo) :: groups16 rest
  | _ => []
  end.

Fixpoint zeroRun (g : list Z) : nat :=
  match g with
  | v :: rest => if v =? 0 then S (zeroRun rest) else 0%nat
  | [] => 0%nat
  end.

(** The longest run of at least two zero groups, the first one on a tie:
    its start and its end. *)
Fixpoint longestZeroRun (i : nat) (g : list Z) (best : option (nat * nat))
  : option (nat * nat) :=
  match g with
  | [] => best
  | _ :: rest =>
      let l := zeroRun g in
      let bestLen := match best with Some (a, b) => (b - a)%nat | None => 0%nat end in
      let best' := if (2 <=? l)%nat && (bestLen <? l)%nat then Some (i, (i + l)%nat) else best in
      longestZeroRun (S i) rest best'
  end.

(** [netip.Addr.string6] without a zone. *)
Fixpoint string6Loop (fuel i : nat) (g : list Z) (run : option (nat * nat)) : string :=
  match fuel with
  | O => EmptyString
  | S k =>
      if (8 <=? i)%nat then EmptyString
      else
        match run with
        | Some (a, b) =>
            if (i =? a)%nat then
              "::" +:+ (if (8 <=? b)%nat then EmptyString
                       else appendHex (nth b g 0) +:+ string6Loop k (S b) g run)
            else (if (0 <? i)%nat then ":" else EmptyString)
                 +:+ appendHex (nth i g 0) +:+ string6Loop k (S i) g run
        | None =>
            (if (0 <? i)%nat then ":" else EmptyString)
            +:+ appendHex (nth i g 0) +:+ string6Loop k (S i) g run
        end
  end.

Definition string6 (b : list Z) : string :=
  let g := groups16 b in
  string6Loop 9 0 g (longestZeroRun 0 g None).

Definition string4 (b : list Z) : string :=
  strconv.uitoa (nth 0 b 0) +:+ "." +:+ strconv.uitoa (nth 1 b 0) +:+ "."
  +:+ strconv.uitoa (nth 2 b 0) +:+ "." +:+ strconv.uitoa (nth 3 b 0).

(** [IP.String]. *)
Definition IP_String (ip : IP) : string :=
  if (length ip =? 0)%nat then "<nil>"
  else if negb (length ip =? 4)%nat && negb (length ip =? 16)%nat
  then "?" +:+ hexString ip
  else
    let p4 := To4 ip in
    if (length p4 =? 4)%nat then string4 p4 else string6 ip.

(** [net.networkNumberAndMask]; [None] stands for the pair of [nil]s. *)
Definition networkNumberAndMask (n : IPNet) : option (IP * IPMask) :=
  let ip4 := To4 (IPNet_IP n) in
  let ip := if (length ip4 =? 0)%nat then IPNet_IP n else ip4 in
  if (length ip4 =? 0)%nat && negb (length ip =? 16)%nat then None
  else
    let m := IPNet_Mask n in
    if (length m =? 4)%nat then
      if negb (length ip =? 4)%nat then None else Some (ip, m)
    else if (length m =? 16)%nat then
      Some (ip, if (length ip =? 4)%nat then drop 12 m else m)
    else None.

(** [IPNet.String]. *)
Definition IPNet_String (n : IPNet) : string :=
  match networkNumberAndMask n with
  | None => "<nil>"
  | Some (nn, m) =>
      let l := simpleMaskLength m in
      if l =? -1 then IP_String nn +:+ "/" +:+ hexString m
      else IP_String nn +:+ "/" +:+ strconv.uitoa l
  end.

End gonet.

(* ===================================================================== *)
(** * internal/models *)
(* ===================================================================== *)

(** A Go [error]: [None] is [nil], [Some msg] an error with that text. *)
Definition error := option string.

Definition errText (e : error) : string := default "<nil>" e.

Module InternetProvider.
Record t := mk {
  ID : string;
  Name : string;
  Interface : string;
  TableID : Z;
  Gateway : string;
  Description : string;
  CreatedAt : Z;
  UpdatedAt : Z
}.
End InternetProvider.

Module RoutingPolicy.
Record t := mk {
  ID : string;
  Name : string;
  ProviderID : string;
  Description : string;
  Enabled : bool;
  CreatedAt : Z;
  UpdatedAt : Z
}.
End RoutingPolicy.

Module models.

(** The method [Validate] of [InternetProvider]. *)
Definition InternetProvider_Validate (p : InternetProvider.t) : error :=
  if isEmpty (InternetProvider.ID p) then Some "provider ID is required"
  else if isEmpty (InternetProvider.Name p) then Some "provider name is required"
  else if isEmpty (InternetProvider.Interface p) then Some "provider interface is required"
  else if InternetProvider.TableID p <=? 0 then Some "provider table ID must be greater than 0"
  else if isEmpty (InternetProvider.Gateway p) then Some "provider gateway is required"
  else match gonet.ParseIP (InternetProvider.Gateway p) with
       | None => Some ("invalid gateway IP address: " +:+ InternetProvider.Gateway p)
       | Some _ => None
       end.

(** The method [Validate] of [RoutingPolicy]. *)
Definition Validate (p : RoutingPolicy.t) : error :=
  if isEmpty (RoutingPolicy.ID p) then Some "policy ID is required"
  else if isEmpty (RoutingPolicy.Name p) then Some "policy name is required"
  else if isEmpty (RoutingPolicy.ProviderID p) then Some "provider ID is required"
  else match gonet.ParseCIDR (RoutingPolicy.ID p) with
       | Some _ => None
       | None =>
           match gonet.ParseIP (RoutingPolicy.ID p) with
           | None => Some ("policy ID must be a valid IP address or CIDR notation: "
                           +:+ RoutingPolicy.ID p)
           | Some _ => None
           end
       end.

End models.

(* ===================================================================== *)
(** * The host: external commands, their trace, and the log *)
(* ===================================================================== *)

(** The engine reaches the kernel only through [exec.Command]: it runs
    [ip rule show], [ip rule add], [ip rule del] and [conntrack -D].  A
    platform gives the effect of running an argument vector on a host
    state of type [K]: the combined output, the error, and the next state.

    It also fixes the order in which a [range] over a Go map visits its
    entries, which the language leaves unspecified: [rangeOrder] is some
    permutation of the entries. *)
Class Platform (K : Type) := {
  exec : list string -> K -> (string * error) * K;
  rangeOrder : list (string * list string) -> list (string * list string);
  rangeOrder_perm : forall m, Permutation (rangeOrder m) m
}.

Inductive Level := Warn | Error.

(** The state threaded through the engine: the host, the argument vectors
    of the commands run so far (oldest first), and the lines logged at
    warning and error level (lines at debug and info level are left out). *)
Record World (K : Type) := mkWorld {
  host : K;
  calls : list (list string);
  logs : list (Level * string)
}.
Arguments mkWorld {K}.
Arguments host {K}.
Arguments calls {K}.
Arguments logs {K}.

Definition M (K A : Type) : Type := World K -> A * World K.

Definition ret {K A} (a : A) : M K A := fun w => (a, w).

Definition bind {K A B} (m : M K A) (k : A -> M K B) : M K B :=
  fun w => let (a, w') := m w in k a w'.

Declare Scope engine_scope.
Delimit Scope engine_scope with engine.
Notation "x <- m ;; k" := (bind m (fun x => k))
  (at level 100, m at next level, right associativity) : engine_scope.
Notation "m ;; k" := (bind m (fun _ => k))
  (at level 100, right associativity) : engine_scope.
Open Scope engine_scope.

Definition ipRuleShow : list string := ["ip"; "rule"; "show"].


(* ===================================================================== *)
(** * internal/router: the reconciliation engine *)
(* ===================================================================== *)

Module router.
Section Engine.

Context {K : Type} {P : Platform K}.

Import gostrings strconv gonet.

(** [exec.Command(argv...)] followed by [CombinedOutput] (or [Run], which
    only keeps the error). *)
Definition execCommand (argv : list string) : M K (string * error) :=
  fun w =>
    let (r, h) := exec argv (host w) in
    (r, mkWorld h (calls w ++ [argv]) (logs w)).

Definition logAt (lv : Level) (msg : string) : M K unit :=
  fun w => (tt, mkWorld (host w) (calls w) (logs w ++ [(lv, msg)])).

(** [if err != nil { ... }]. *)
Definition whenErr (err : error) (f : string -> M K unit) : M K unit :=
  match err with
  | Some e => f e
  | None => ret tt
  end.

Fixpoint forEach {A} (f : A -> M K unit) (l : list A) : M K unit :=
  match l with
  | [] => ret tt
  | a :: rest => f a ;; forEach f rest
  end.

(** The block that opens [SetupPolicy], [RemovePolicy] and the loop of
    [cleanupStaleRules]: the policy ID parsed as CIDR, else as a single
    address widened to a /32. *)
Definition sourceNetwork (id : string) : option IPNet :=
  match ParseCIDR id with
  | Some ipnet => Some ipnet
  | None =>
      match ParseIP id with
      | None => None
      | Some srcIP => Some (mkIPNet srcIP (CIDRMask 32 32))
      end
  end.

Definition calculatePriority (srcNet : IPNet) : Z :=
  let (ones, _) := Size (IPNet_Mask srcNet) in
  let specificity := ones in
  2000 + (32 - specificity).

(** The loop of [checkRoutingRuleExists] over the lines of the listing. *)
Fixpoint findRule (srcIP : string) (lines : list string) : bool * Z * Z :=
  match lines with
  | [] => (false, 0, 0)
  | rawLine :: rest =>
      let line := TrimSpace rawLine in
      if isEmpty line then findRule srcIP rest
      else if Contains line ("from " +:+ srcIP) then
        let parts := Fields line in
        if (4 <=? length parts)%nat then
          let priorityStr := TrimSuffix (hd "" parts) ":" in
          let tableStr := List.last parts "" in
          (true, fst (Atoi priorityStr), fst (Atoi tableStr))
        else findRule srcIP rest
      else findRule srcIP rest
  end.

Definition checkRoutingRuleExists (srcNet : IPNet) : M K (bool * Z * Z) :=
  r <- execCommand ipRuleShow ;;
  match snd r with
  | Some e =>
      logAt Warn ("Failed to check existing rules: " +:+ e) ;;
      ret (false, 0, 0)
  | None => ret (findRule (IP_String (IPNet_IP srcNet)) (Split (fst r) newline))
  end.

(** The inner loop of [removeAllRulesForSource]: the result is
    [foundRule]. *)
Fixpoint removeFirstRule (srcNet : IPNet) (lines : list string) : M K bool :=
  match lines with
  | [] => ret false
  | rawLine :: rest =>
      let line := TrimSpace rawLine in
      if isEmpty line then removeFirstRule srcNet rest
      else if Contains line ("from " +:+ IP_String (IPNet_IP srcNet))
              && (4 <=? length (Fields line))%nat then
        r <- execCommand ["ip"; "rule"; "del"; "from"; IPNet_String srcNet] ;;
        match snd r with
        | Some e =>
            logAt Warn ("Failed to remove rule: " +:+ e) ;;
            removeFirstRule srcNet rest
        | None => ret true
        end
      else removeFirstRule srcNet rest
  end.

(** The outer loop of [removeAllRulesForSource], [attempts] rounds left. *)
Fixpoint removeAttempts (attempts : nat) (srcNet : IPNet) : M K error :=
  match attempts with
  | O => ret None
  | S k =>
      r <- execCommand ipRuleShow ;;
      match snd r with
      | Some e =>
          logAt Warn ("Failed to check existing rules: " +:+ e) ;;
          ret (Some e)
      | None =>
          foundRule <- removeFirstRule srcNet (Split (fst r) newline) ;;
          if foundRule then removeAttempts k srcNet else ret None
      end
  end.

Definition maxAttempts : nat := 10.

Definition removeAllRulesForSource (srcNet : IPNet) : M K error :=
  removeAttempts maxAttempts srcNet.

Definition clearConntrack (srcNet : IPNet) : M K error :=
  _ <- execCommand ["conntrack"; "-D"; "--src"; IPNet_String srcNet] ;;
  ret None.

Definition removeRoutingRule (srcNet : IPNet) : M K error :=
  r <- checkRoutingRuleExists srcNet ;;
  let '(found, priority, _) := r in
  if negb found then ret None
  else
    c <- execCommand ["ip"; "rule"; "del"; "priority"; Itoa priority] ;;
    match snd c with
    | Some e =>
        logAt Warn ("Failed to remove routing rule: " +:+ e +:+ ", output: " +:+ fst c) ;;
        ret (Some ("failed to remove routing rule: " +:+ e))
    | None =>
        err <- clearConntrack srcNet ;;
        whenErr err (fun e =>
          logAt Warn ("Failed to clear conntrack entries for "
                      +:+ IPNet_String srcNet +:+ ": " +:+ e)) ;;
        ret None
    end.

Definition addRoutingRule (srcNet : IPNet) (tableID : Z) : M K error :=
  let priority := calculatePriority srcNet in
  c <- execCommand ["ip"; "rule"; "add"; "priority"; Itoa priority;
                    "table"; Itoa tableID; "from"; IPNet_String srcNet] ;;
  match snd c with
  | Some e =>
      logAt Error ("Command failed: " +:+ e) ;;
      logAt Error ("Command output: " +:+ fst c) ;;
      ret (Some ("failed to add routing rule: " +:+ e))
  | None =>
      err <- clearConntrack srcNet ;;
      whenErr err (fun e =>
        logAt Warn ("Failed to clear conntrack entries for "
                    +:+ IPNet_String srcNet +:+ ": " +:+ e)) ;;
      ret None
  end.

Definition SetupPolicy (policy : RoutingPolicy.t) (provider : InternetProvider.t)
  : M K error :=
  let name := RoutingPolicy.Name policy in
  if negb (RoutingPolicy.Enabled policy) then
    match sourceNetwork (RoutingPolicy.ID policy) with
    | None =>
        ret (Some ("invalid policy ID as source IP/CIDR: " +:+ RoutingPolicy.ID policy))
    | Some srcNet =>
        err <- removeAllRulesForSource srcNet ;;
        whenErr err (fun e =>
          logAt Warn ("Failed to remove rules for disabled policy "
                      +:+ name +:+ ": " +:+ e)) ;;
        err <- clearConntrack srcNet ;;
        whenErr err (fun e =>
          logAt Warn ("Failed to clear conntrack entries for disabled policy "
                      +:+ name +:+ ": " +:+ e)) ;;
        ret None
    end
  else
    match sourceNetwork (RoutingPolicy.ID policy) with
    | None =>
        ret (Some ("invalid policy ID as source IP/CIDR: " +:+ RoutingPolicy.ID policy))
    | Some srcNet =>
        let add : M K error :=
          err <- addRoutingRule srcNet (InternetProvider.TableID provider) ;;
          match err with
          | Some e =>
              ret (Some ("failed to add routing rule for policy " +:+ name +:+ ": " +:+ e))
          | None => ret None
          end in
        r <- checkRoutingRuleExists srcNet ;;
        let '(found, existingPriority, existingTable) := r in
        if found then
          if existingTable =? InternetProvider.TableID provider then ret None
          else
            err <- removeAllRulesForSource srcNet ;;
            match err with
            | Some e =>
                ret (Some ("failed to remove old routing rules for policy "
                           +:+ name +:+ ": " +:+ e))
            | None => add
            end
        else add
    end.

Definition RemovePolicy (policy : RoutingPolicy.t) (provider : InternetProvider.t)
  : M K error :=
  match sourceNetwork (RoutingPolicy.ID policy) with
  | None =>
      ret (Some ("invalid policy ID as source IP/CIDR: " +:+ RoutingPolicy.ID policy))
  | Some srcNet =>
      err <- removeRoutingRule srcNet ;;
      match err with
      | Some e =>
          ret (Some ("failed to remove routing rule for policy "
                     +:+ RoutingPolicy.Name policy +:+ ": " +:+ e))
      | None => ret None
      end
  end.

(** ** The cleanup passes *)

(** The token after the first ["from"] that has a successor. *)
Fixpoint sourceAfterFrom (parts : list string) : option string :=
  match parts with
  | [] => None
  | part :: rest =>
      if String.eqb part "from" then
        match rest with
        | next :: _ => Some next
        | [] => sourceAfterFrom rest
        end
      else sourceAfterFrom rest
  end.

Definition inManagedRange (priority : Z) : bool :=
  negb ((priority <? 2000) || (2032 <? priority)).

(** The prologue shared by the loops of the cleanup passes: the trimmed
    line, its fields and its priority, for a non-empty line whose first
    field parses to a priority of the managed range. *)
Definition managedLine (rawLine : string) : option (string * list string * Z) :=
  let line := TrimSpace rawLine in
  if isEmpty line then None
  else
    let parts := Fields line in
    if (length parts =? 0)%nat then None
    else
      let (priority, ok) := Atoi (TrimSuffix (hd "" parts) ":") in
      if negb ok then None
      else if negb (inManagedRange priority) then None
      else Some (line, parts, priority).

Definition delPriority (priority : Z) : list string :=
  ["ip"; "rule"; "del"; "priority"; Itoa priority].

(** The first loop of [cleanupStaleRules]: the set [activeSources]. *)
Fixpoint collectActiveSources (policies : list RoutingPolicy.t)
         (activeSources : gset string) : M K (gset string) :=
  match policies with
  | [] => ret activeSources
  | policy :: rest =>
      match sourceNetwork (RoutingPolicy.ID policy) with
      | None =>
          logAt Warn ("Invalid policy ID as source IP/CIDR: " +:+ RoutingPolicy.ID policy) ;;
          collectActiveSources rest activeSources
      | Some srcNet =>
          collectActiveSources rest ({[ IP_String (IPNet_IP srcNet) ]} ∪ activeSources)
      end
  end.

Definition isActive (activeSources : gset string) (srcIP : string) : bool :=
  if bool_decide (srcIP ∈ activeSources) then true
  else if Contains srcIP "/"
       then bool_decide (hd "" (Split srcIP "/") ∈ activeSources)
       else false.

(** The body of the second loop of [cleanupStaleRules]. *)
Definition staleStep (activeSources : gset string) (rawLine : string) : M K unit :=
  match managedLine rawLine with
  | None => ret tt
  | Some (line, parts, priority) =>
      if HasPrefix line "0:" || HasPrefix line "32766:" || HasPrefix line "32767:"
      then ret tt
      else if Contains line "from" && Contains line "lookup" then
        let srcIP := default "" (sourceAfterFrom parts) in
        if negb (isEmpty srcIP) then
          if negb (isActive activeSources srcIP) then
            c <- execCommand (delPriority priority) ;;
            whenErr (snd c) (fun e => logAt Warn ("Failed to remove stale rule: " +:+ e))
          else ret tt
        else ret tt
      else ret tt
  end.

Definition cleanupStaleRules (activePolicies : list RoutingPolicy.t) : M K error :=
  r <- execCommand ipRuleShow ;;
  match snd r with
  | Some e =>
      logAt Warn ("Failed to get current rules for cleanup: " +:+ e) ;;
      ret (Some e)
  | None =>
      activeSources <- collectActiveSources activePolicies ∅ ;;
      forEach (staleStep activeSources) (Split (fst r) newline) ;;
      ret None
  end.

(** [sourceRules[srcIP] = append(sourceRules[srcIP], line)]; the entries
    are kept in the order in which their keys first appear. *)
Fixpoint appendRule (sourceRules : list (string * list string))
         (srcIP line : string) : list (string * list string) :=
  match sourceRules with
  | [] => [(srcIP, [line])]
  | (k, rules) :: rest =>
      if String.eqb k srcIP then (k, rules ++ [line]) :: rest
      else (k, rules) :: appendRule rest srcIP line
  end.

(** The grouping loop of [cleanupDuplicateRules] and, with [ignoreAll],
    of [validateSingleRulePerSource], which leaves out the source
    ["all"]. *)
Definition groupStep (ignoreAll : bool) (sourceRules : list (string * list string))
           (rawLine : string) : list (string * list string) :=
  match managedLine rawLine with
  | None => sourceRules
  | Some (line, parts, _) =>
      if Contains line "from" && Contains line "lookup" then
        match sourceAfterFrom parts with
        | Some srcIP =>
            if ignoreAll && String.eqb srcIP "all" then sourceRules
            else appendRule sourceRules srcIP line
        | None => sourceRules
        end
      else sourceRules
  end.

Definition groupRules (ignoreAll : bool) (lines : list string)
  : list (string * list string) :=
  foldl (groupStep ignoreAll) [] lines.

(** The loop [for i := 1; i < len(rules); i++] of
    [cleanupDuplicateRules], over [rules[1:]]. *)
Definition removeDuplicate (rule : string) : M K unit :=
  let parts := Fields rule in
  if (1 <=? length parts)%nat then
    let priority := fst (Atoi (TrimSuffix (hd "" parts) ":")) in
    c <- execCommand (delPriority priority) ;;
    whenErr (snd c) (fun e => logAt Warn ("Failed to remove duplicate rule: " +:+ e))
  else ret tt.

Definition dedupGroup (entry : string * list string) : M K unit :=
  let rules := snd entry in
  if (1 <? length rules)%nat then forEach removeDuplicate (tail rules)
  else ret tt.

Definition cleanupDuplicateRules : M K error :=
  r <- execCommand ipRuleShow ;;
  match snd r with
  | Some e =>
      logAt Warn ("Failed to get current rules for cleanup: " +:+ e) ;;
      ret (Some e)
  | None =>
      let sourceRules := groupRules false (Split (fst r) newline) in
      forEach dedupGroup (rangeOrder sourceRules) ;;
      ret None
  end.

Definition cleanupAllStep (rawLine : string) : M K unit :=
  match managedLine rawLine with
  | None => ret tt
  | Some (_, _, priority) =>
      c <- execCommand (delPriority priority) ;;
      whenErr (snd c) (fun e => logAt Warn ("Failed to remove rule during cleanup: " +:+ e))
  end.

Definition CleanupAllRules : M K error :=
  r <- execCommand ipRuleShow ;;
  match snd r with
  | Some e =>
      logAt Warn ("Failed to get current rules for cleanup: " +:+ e) ;;
      ret (Some e)
  | None =>
      forEach cleanupAllStep (Split (fst r) newline) ;;
      ret None
  end.

Fixpoint reportRules (i : Z) (rules : list string) : M K unit :=
  match rules with
  | [] => ret tt
  | rule :: rest =>
      logAt Warn ("  Rule " +:+ Itoa (i + 1) +:+ ": " +:+ rule) ;;
      reportRules (i + 1) rest
  end.

(** The violation loop of [validateSingleRulePerSource]: the result is
    the number of violations. *)
Fixpoint reportViolations (groups : list (string * list string)) (violations : Z)
  : M K Z :=
  match groups with
  | [] => ret violations
  | (srcIP, rules) :: rest =>
      if (1 <? length rules)%nat then
        logAt Warn ("VALIDATION VIOLATION: Found " +:+ Itoa (Z.of_nat (length rules))
                    +:+ " rules for source " +:+ srcIP +:+ ":") ;;
        reportRules 0 rules ;;
        reportViolations rest (violations + 1)
      else reportViolations rest violations
  end.

Definition validateSingleRulePerSource : M K error :=
  r <- execCommand ipRuleShow ;;
  match snd r with
  | Some e =>
      logAt Warn ("Failed to get current rules for validation: " +:+ e) ;;
      ret (Some e)
  | None =>
      let sourceRules := groupRules true (Split (fst r) newline) in
      violations <- reportViolations (rangeOrder sourceRules) 0 ;;
      (if 0 <? violations
       then logAt Warn ("Validation found " +:+ Itoa violations
                        +:+ " sources with multiple rules")
       else ret tt) ;;
      ret None
  end.

(** ** The full-sync pass *)

Definition providerMapOf (providers : list InternetProvider.t)
  : gmap string InternetProvider.t :=
  foldl (fun m provider => <[InternetProvider.ID provider := provider]> m) ∅ providers.

(** The body of the loop over the policies in [SyncPolicies]. *)
Definition syncPolicy (providerMap : gmap string InternetProvider.t)
           (policy : RoutingPolicy.t) : M K unit :=
  match providerMap !! RoutingPolicy.ProviderID policy with
  | Some provider =>
      err <- SetupPolicy policy provider ;;
      whenErr err (fun e =>
        logAt Error ("Failed to set up policy " +:+ RoutingPolicy.Name policy +:+ ": " +:+ e))
  | None =>
      logAt Warn ("Provider " +:+ RoutingPolicy.ProviderID policy
                  +:+ " not found for policy " +:+ RoutingPolicy.Name policy)
  end.

Definition SyncPolicies (policies : list RoutingPolicy.t)
           (providers : list InternetProvider.t) : M K error :=
  err <- cleanupDuplicateRules ;;
  whenErr err (fun e => logAt Warn ("Failed to cleanup duplicate rules: " +:+ e)) ;;
  let providerMap := providerMapOf providers in
  forEach (syncPolicy providerMap) policies ;;
  err <- cleanupStaleRules policies ;;
  whenErr err (fun e => logAt Warn ("Failed to cleanup stale rules: " +:+ e)) ;;
  err <- validateSingleRulePerSource ;;
  whenErr err (fun e => logAt Warn ("Failed to validate single rule per source: " +:+ e)) ;;
  ret None.

End Engine.
End router.

(* ===================================================================== *)
(** * The sync service: the policy watch stream *)
(* ===================================================================== *)

Module syncsvc.

(** [nats.KeyValueOp]. *)
Inductive KeyValueOp := KeyValuePut | KeyValueDelete | KeyValuePurge.

(** A [nats.KeyValueEntry] as the watcher delivers it. *)
Record Update := mkUpdate {
  Key : string;
  Operation : KeyValueOp;
  Value : string
}.

(** The cache of [Service], together with the engine's world. *)
Record Service (K : Type) := mkService {
  providers : gmap string InternetProvider.t;
  policies : gmap string RoutingPolicy.t;
  world : World K
}.
Arguments mkService {K}.
Arguments providers {K}.
Arguments policies {K}.
Arguments world {K}.

Section Watch.

Context {K : Type} {P : Platform K}.

(** [RoutingPolicy.FromJSON], that is [json.Unmarshal]: the decoded
    policy, or the text of the error. *)
Variable FromJSON : string -> RoutingPolicy.t + string.

Definition runEngine {A} (m : M K A) (s : Service K) : A * Service K :=
  let (a, w) := m (world s) in
  (a, mkService (providers s) (policies s) w).

Definition logService (lv : Level) (msg : string) (s : Service K) : Service K :=
  snd (runEngine (router.logAt lv msg) s).

(** The callback that [watchPolicies] hands to [WatchPolicies]; a [nil]
    policy is [None]. *)
Definition policyCallback (policy : option RoutingPolicy.t) (op : KeyValueOp)
           (s : Service K) : Service K :=
  match op with
  | KeyValuePut =>
      match policy with
      | None => s
      | Some policy =>
          let s1 := mkService (providers s)
                      (<[RoutingPolicy.ID policy := policy]> (policies s)) (world s) in
          match providers s1 !! RoutingPolicy.ProviderID policy with
          | None =>
              logService Warn ("Provider " +:+ RoutingPolicy.ProviderID policy
                               +:+ " not found for policy " +:+ RoutingPolicy.Name policy) s1
          | Some provider =>
              let (err, s2) := runEngine (router.SetupPolicy policy provider) s1 in
              match err with
              | Some e =>
                  logService Error ("Failed to set up policy "
                                    +:+ RoutingPolicy.Name policy +:+ ": " +:+ e) s2
              | None => s2
              end
          end
      end
  | KeyValueDelete =>
      match policy with
      | None => s
      | Some policy =>
          let s1 := mkService (providers s)
                      (delete (RoutingPolicy.ID policy) (policies s)) (world s) in
          match providers s1 !! RoutingPolicy.ProviderID policy with
          | None =>
              logService Warn ("Provider " +:+ RoutingPolicy.ProviderID policy
                               +:+ " not found for policy " +:+ RoutingPolicy.Name policy) s1
          | Some provider =>
              let (err, s2) := runEngine (router.RemovePolicy policy provider) s1 in
              match err with
              | Some e =>
                  logService Error ("Failed to remove policy "
                                    +:+ RoutingPolicy.Name policy +:+ ": " +:+ e) s2
              | None => s2
              end
          end
      end
  | KeyValuePurge => s
  end.

(** One turn of the loop of [WatchPolicies] on the update taken from
    the watcher ([None] is the [nil] update), with [policyCallback] as
    the callback. *)
Definition watchPoliciesStep (update : option Update) (s : Service K) : Service K :=
  match update with
  | None => s
  | Some update =>
      if (9 <? String.length (Key update))%nat
         && String.eqb (substring 0 9 (Key update)) "policies."
      then
        match Operation update with
        | KeyValueDelete => policyCallback None (Operation update) s
        | _ =>
            match FromJSON (Value update) with
            | inr e => logService Warn ("Failed to unmarshal policy update: " +:+ e) s
            | inl policy => policyCallback (Some policy) (Operation update) s
            end
        end
      else s
  end.

End Watch.

End syncsvc.

(* ===================================================================== *)
(** * A reference host: the Linux rule table *)
(* ===================================================================== *)

(** The rule table as [ip rule] keeps and shows it, used to run the engine
    on concrete scenarios.  Rules are listed by ascending priority, rules
    of equal priority in the order in which they were added; a rule is
    shown as ["<priority>:<tab>from <source> lookup <table>"], with the
    source of a /32 shown as the bare address and that of a /0 as ["all"].
    [ip rule del priority P] removes the first rule listed with priority
    [P]; [ip rule del from SRC] removes the first rule listed with that
    source.  A command that matches no rule, or adds a rule that is already
    there, fails. *)
Module linux.

Import gostrings strconv gonet.

Record Rule := mkRule { pref : Z; src : string; table : string }.

Definition State := list Rule.

Definition showRule (r : Rule) : string :=
  Itoa (pref r) +:+ ":" +:+ tab +:+ "from " +:+ src r +:+ " lookup " +:+ table r +:+ newline.

Definition show (st : State) : string :=
  foldr (fun r acc => showRule r +:+ acc) EmptyString st.

Definition tableName (t : string) : string :=
  if String.eqb t "255" then "local"
  else if String.eqb t "254" then "main"
  else if String.eqb t "253" then "default"
  else t.

(** The selector of a [from] argument as the listing shows it. *)
Definition selector (arg : string) : option string :=
  match ParseCIDR arg with
  | None => None
  | Some n =>
      let (ones, bits) := Size (IPNet_Mask n) in
      if ones =? 0 then Some "all"
      else if ones =? bits then Some (IP_String (IPNet_IP n))
      else Some (IPNet_String n)
  end.

Definition sameRule (a b : Rule) : bool :=
  (pref a =? pref b) && String.eqb (src a) (src b) && String.eqb (table a) (table b).

Fixpoint insertRule (r : Rule) (st : State) : State :=
  match st with
  | [] => [r]
  | x :: rest => if pref r <? pref x then r :: st else x :: insertRule r rest
  end.

Fixpoint removeFirst (f : Rule -> bool) (st : State) : option State :=
  match st with
  | [] => None
  | x :: rest =>
      if f x then Some rest
      else option_map (cons x) (removeFirst f rest)
  end.

Definition failure (msg : string) (st : State) : (string * error) * State :=
  ((msg +:+ newline, Some "exit status 2"), st).

Definition run (argv : list string) (st : State) : (string * error) * State :=
  match argv with
  | ["ip"; "rule"; "show"] => ((show st, None), st)
  | ["ip"; "rule"; "add"; "priority"; p; "table"; t; "from"; s] =>
      match Atoi p, Atoi t, selector s with
      | (prio, true), (_, true), Some sel =>
          let r := mkRule prio sel (tableName t) in
          if existsb (sameRule r) st
          then failure "RTNETLINK answers: File exists" st
          else ((EmptyString, None), insertRule r st)
      | _, _, _ => failure "Error: invalid argument" st
      end
  | ["ip"; "rule"; "del"; "priority"; p] =>
      match Atoi p with
      | (prio, true) =>
          match removeFirst (fun r => pref r =? prio) st with
          | Some st' => ((EmptyString, None), st')
          | None => failure "RTNETLINK answers: No such file or directory" st
          end
      | _ => failure "Error: invalid argument" st
      end
  | ["ip"; "rule"; "del"; "from"; s] =>
      match selector s with
      | Some sel =>
          match removeFirst (fun r => String.eqb (src r) sel) st with
          | Some st' => ((EmptyString, None), st')
          | None => failure "RTNETLINK answers: No such file or directory" st
          end
      | None => failure "Error: invalid argument" st
      end
  | ["conntrack"; "-D"; "--src"; _] => ((EmptyString, None), st)
  | _ => failure "Error: unknown command" st
  end.

#[global] Instance platform : Platform State := {|
  exec := run;
  rangeOrder := fun m => m;
  rangeOrder_perm := fun m => Permutation_refl m
|}.

Definition start (st : State) : World State := mkWorld st [] [].

(** The kernel's default rules. *)
Definition defaults : State :=
  [mkRule 0 "all" "local"; mkRule 32766 "all" "main"; mkRule 32767 "all" "default"].

End linux.

(* ===================================================================== *)
(** * Notions used to state the properties *)
(* ===================================================================== *)

Module spec.

Import gostrings strconv gonet router.

(** An address that [net] treats as IPv4: its [To4] is not [nil]. *)
Definition isIPv4 (ip : IP) : bool := negb (length (To4 ip) =? 0)%nat.

(** The ID parses as a single IPv4 address. *)
Definition isIPv4Address (id : string) : bool :=
  match ParseIP id with
  | Some ip => isIPv4 ip
  | None => false
  end.

(** The ID parses as IPv4 CIDR notation. *)
Definition isIPv4CIDR (id : string) : bool :=
  match ParseCIDR id with
  | Some n => isIPv4 (IPNet_IP n)
  | None => false
  end.

(** A line of the listing read as a rule of the managed range with a
    source: its priority and its source token. *)
Definition managedRule (rawLine : string) : option (Z * string) :=
  match managedLine rawLine with
  | None => None
  | Some (line, parts, priority) =>
      if HasPrefix line "0:" || HasPrefix line "32766:" || HasPrefix line "32767:"
      then None
      else if Contains line "from" && Contains line "lookup" then
        match sourceAfterFrom parts with
        | Some srcIP => if isEmpty srcIP then None else Some (priority, srcIP)
        | None => None
        end
      else None
  end.

(** The source stripped of its CIDR suffix. *)
Definition ipPortion (src : string) : string := hd "" (Split src "/").

(** The IP portion of a policy's resolved source network. *)
Definition policyIP (policy : RoutingPolicy.t) : option string :=
  option_map (fun srcNet => IP_String (IPNet_IP srcNet))
             (sourceNetwork (RoutingPolicy.ID policy)).

(** The source of a rule matches the policy: as written, or stripped of
    its CIDR suffix, it is the IP portion of the policy's source. *)
Definition matchesPolicy (src : string) (policy : RoutingPolicy.t) : bool :=
  match policyIP policy with
  | Some ip => String.eqb src ip || String.eqb (ipPortion src) ip
  | None => false
  end.

(** A stale line: a managed rule whose source matches none of the
    policies. *)
Definition staleLine (policies : list RoutingPolicy.t) (rawLine : string) : bool :=
  match managedRule rawLine with
  | Some (_, src) => negb (existsb (matchesPolicy src) policies)
  | None => false
  end.

(** The priorities of the stale lines, in listing order. *)
Definition stalePriorities (policies : list RoutingPolicy.t) (lines : list string)
  : list Z :=
  omap (fun l => if staleLine policies l then option_map fst (managedRule l) else None)
       lines.



(** The line that [syncPolicy] logs for a policy whose ID does not
    parse. *)
Definition unparsableEntry (providerMap : gmap string InternetProvider.t)
           (policy : RoutingPolicy.t) : Level * string :=
  match providerMap !! RoutingPolicy.ProviderID policy with
  | Some _ =>
      (Error, "Failed to set up policy " +:+ RoutingPolicy.Name policy +:+ ": "
              +:+ "invalid policy ID as source IP/CIDR: " +:+ RoutingPolicy.ID policy)
  | None =>
      (Warn, "Provider " +:+ RoutingPolicy.ProviderID policy
             +:+ " not found for policy " +:+ RoutingPolicy.Name policy)
  end.


(** From [w] to [w'] the host is unchanged and the commands run are [n]
    listings. *)
Definition listed {K} (n : nat) (w w' : World K) : Prop :=
  host w' = host w /\ calls w' = calls w ++ repeat ipRuleShow n.

(** The commands run between two worlds. *)
Definition newCalls {K} (w w' : World K) : list (list string) :=
  drop (length (calls w)) (calls w').

(** The rules of a state of the reference host that lie in the managed
    range and have the given source. *)
Definition managedRulesFor (source : string) (st : linux.State) : list linux.Rule :=
  List.filter (fun r => inManagedRange (linux.pref r) && String.eqb (linux.src r) source) st.

End spec.

(* ===================================================================== *)
(** * internal/nats: the configuration store client *)
(* ===================================================================== *)

(** Package [unicode/utf8]: the width in bytes of the rune that
    [DecodeRuneInString], and a [range] over a string, read at the head of
    a byte sequence.  An invalid or truncated encoding is read as
    [RuneError] with width 1. *)
Module utf8.

Definition between (lo hi b : Z) : bool := (lo <=? b) && (b <=? hi).

(** The range accepted for the second byte after the first byte [b0]. *)
Definition acceptsSecond (b0 b1 : Z) : bool :=
  if b0 =? 224 then between 160 191 b1
  else if b0 =? 237 then between 128 159 b1
  else if b0 =? 240 then between 144 191 b1
  else if b0 =? 244 then between 128 143 b1
  else between 128 191 b1.

Definition runeWidth (bs : list Z) : nat :=
  match bs with
  | [] => 0%nat
  | b0 :: rest =>
      if b0 <? 128 then 1%nat
      else if between 194 223 b0 then
        match rest with
        | b1 :: _ => if acceptsSecond b0 b1 then 2%nat else 1%nat
        | _ => 1%nat
        end
      else if between 224 239 b0 then
        match rest with
        | b1 :: b2 :: _ =>
            if acceptsSecond b0 b1 && between 128 191 b2 then 3%nat else 1%nat
        | _ => 1%nat
        end
      else if between 240 244 b0 then
        match rest with
        | b1 :: b2 :: b3 :: _ =>
            if acceptsSecond b0 b1 && between 128 191 b2 && between 128 191 b3
            then 4%nat else 1%nat
        | _ => 1%nat
        end
      else 1%nat
  end.

End utf8.

(** The key-value bucket behind the client ([nats.KeyValue]): [kvGet] gives
    the value of an entry or the text of the error, [kvPut] and [kvDelete]
    the error and the next state, [kvKeys] the keys or the text of the
    error. *)
Class KeyValue (S : Type) := {
  kvGet : string -> S -> string + string;
  kvPut : string -> string -> S -> error * S;
  kvDelete : string -> S -> error * S;
  kvKeys : S -> list string + string
}.

Module natsclient.

Import gostrings.

(** The bytes that [sanitizeKey] keeps: letters, digits, dot and
    underscore. *)
Definition keepsByte (c : ascii) : bool :=
  let b := byteOf c in
  utf8.between 97 122 b || utf8.between 65 90 b || utf8.between 48 57 b
  || (b =? 46) || (b =? 95).

(** The loop of [sanitizeKey] over the runes of the key; [skip] counts the
    bytes of the current rune still to be passed over.  A rune that is
    kept is one byte long; any other rune gives one underscore. *)
Fixpoint sanitizeFrom (skip : nat) (key : string) : string :=
  match key with
  | EmptyString => EmptyString
  | String c rest =>
      match skip with
      | S k => sanitizeFrom k rest
      | O =>
          let width := utf8.runeWidth (bytesOf key) in
          String (if keepsByte c then c else "_"%char) (sanitizeFrom (width - 1) rest)
      end
  end.

Definition sanitizeKey (key : string) : string := sanitizeFrom 0 key.

Section Client.

Context {S : Type} {KV : KeyValue S}.

(** [ToJSON] and [FromJSON] of the two models, that is [json.Marshal] and
    [json.Unmarshal]: the result, or the text of the error. *)
Variable providerToJSON : InternetProvider.t -> string + string.
Variable providerFromJSON : string -> InternetProvider.t + string.
Variable policyToJSON : RoutingPolicy.t -> string + string.
Variable policyFromJSON : string -> RoutingPolicy.t + string.

Definition StoreProvider (provider : InternetProvider.t) (s : S) : error * S :=
  match providerToJSON provider with
  | inr e => (Some ("failed to marshal provider: " +:+ e), s)
  | inl data =>
      let key := "providers." +:+ sanitizeKey (InternetProvider.ID provider) in
      match kvPut key data s with
      | (Some e, s') => (Some ("failed to store provider: " +:+ e), s')
      | (None, s') => (None, s')
      end
  end.

Definition GetProvider (id : string) (s : S) : InternetProvider.t + string :=
  let entry :=
    match kvGet ("providers." +:+ sanitizeKey id) s with
    | inl value => inl value
    | inr _ => kvGet ("providers." +:+ id) s
    end in
  match entry with
  | inr e => inr ("failed to get provider: " +:+ e)
  | inl value =>
      match providerFromJSON value with
      | inr e => inr ("failed to unmarshal provider: " +:+ e)
      | inl provider => inl provider
      end
  end.

(** The loop of [ListProviders] over the keys: the providers collected and
    the warnings logged. *)
Fixpoint listProvidersLoop (keys : list string) (s : S)
  : list InternetProvider.t * list (Level * string) :=
  match keys with
  | [] => ([], [])
  | key :: rest =>
      let (providers, warnings) := listProvidersLoop rest s in
      if (10 <? String.length key)%nat && String.eqb (substring 0 10 key) "providers."
      then
        let providerID := substring 10 (String.length key - 10) key in
        match GetProvider providerID s with
        | inr e =>
            (providers,
             (Warn, "Failed to get provider with sanitized ID " +:+ providerID
                    +:+ ": " +:+ e) :: warnings)
        | inl provider => (provider :: providers, warnings)
        end
      else (providers, warnings)
  end.

(** [ListProviders]: the providers or the error, and the warnings
    logged. *)
Definition ListProviders (s : S)
  : (list InternetProvider.t + string) * list (Level * string) :=
  match kvKeys s with
  | inr e =>
      if Contains e "no keys found" then (inl [], [])
      else (inr ("failed to list provider keys: " +:+ e), [])
  | inl keys =>
      let (providers, warnings) := listProvidersLoop keys s in
      (inl providers, warnings)
  end.

Definition DeleteProvider (id : string) (s : S) : error * S :=
  match kvDelete ("providers." +:+ sanitizeKey id) s with
  | (None, s') => (None, s')
  | (Some _, s') =>
      match kvDelete ("providers." +:+ id) s' with
      | (None, s'') => (None, s'')
      | (Some e, s'') => (Some ("failed to delete provider: " +:+ e), s'')
      end
  end.

Definition StorePolicy (policy : RoutingPolicy.t) (s : S) : error * S :=
  match policyToJSON policy with
  | inr e => (Some ("failed to marshal policy: " +:+ e), s)
  | inl data =>
      let key := "policies." +:+ sanitizeKey (RoutingPolicy.ID policy) in
      match kvPut key data s with
      | (Some e, s') => (Some ("failed to store policy: " +:+ e), s')
      | (None, s') => (None, s')
      end
  end.

Definition GetPolicy (id : string) (s : S) : RoutingPolicy.t + string :=
  let entry :=
    match kvGet ("policies." +:+ sanitizeKey id) s with
    | inl value => inl value
    | inr _ => kvGet ("policies." +:+ id) s
    end in
  match entry with
  | inr e => inr ("failed to get policy: " +:+ e)
  | inl value =>
      match policyFromJSON value with
      | inr e => inr ("failed to unmarshal policy: " +:+ e)
      | inl policy => inl policy
      end
  end.

Fixpoint listPoliciesLoop (keys : list string) (s : S)
  : list RoutingPolicy.t * list (Level * string) :=
  match keys with
  | [] => ([], [])
  | key :: rest =>
      let (policies, warnings) := listPoliciesLoop rest s in
      if (9 <? String.length key)%nat && String.eqb (substring 0 9 key) "policies."
      then
        let policyID := substring 9 (String.length key - 9) key in
        match GetPolicy policyID s with
        | inr e =>
            (policies,
             (Warn, "Failed to get policy with sanitized ID " +:+ policyID
                    +:+ ": " +:+ e) :: warnings)
        | inl policy => (policy :: policies, warnings)
        end
      else (policies, warnings)
  end.

Definition ListPolicies (s : S)
  : (list RoutingPolicy.t + string) * list (Level * string) :=
  match kvKeys s with
  | inr e =>
      if Contains e "no keys found" then (inl [], [])
      else (inr ("failed to list policy keys: " +:+ e), [])
  | inl keys =>
      let (policies, warnings) := listPoliciesLoop keys s in
      (inl policies, warnings)
  end.

Definition DeletePolicy (id : string) (s : S) : error * S :=
  match kvDelete ("policies." +:+ sanitizeKey id) s with
  | (None, s') => (None, s')
  | (Some _, s') =>
      match kvDelete ("policies." +:+ id) s' with
      | (None, s'') => (None, s'')
      | (Some e, s'') => (Some ("failed to delete policy: " +:+ e), s'')
      end
  end.

End Client.

End natsclient.

(* ===================================================================== *)
(** * The sync service: full resync, provider watch, statistics *)
(* ===================================================================== *)

Module service.

Import syncsvc.

Section Service.

Context {K : Type} {P : Platform K} {S : Type} {KV : KeyValue S}.

Variable providerFromJSON : string -> InternetProvider.t + string.
Variable policyFromJSON : string -> RoutingPolicy.t + string.

Definition appendLogs (entries : list (Level * string)) (s : Service K) : Service K :=
  mkService (providers s) (policies s)
            (mkWorld (host (world s)) (calls (world s)) (logs (world s) ++ entries)).

(** The cache maps that [performFullSync] rebuilds from the listings. *)
Definition policyMapOf (policies : list RoutingPolicy.t) : gmap string RoutingPolicy.t :=
  foldl (fun m policy => <[RoutingPolicy.ID policy := policy]> m) ∅ policies.

(** [performFullSync] against the store [store]. *)
Definition performFullSync (store : S) (s : Service K) : error * Service K :=
  let (listedProviders, warnings1) := natsclient.ListProviders providerFromJSON store in
  let s1 := appendLogs warnings1 s in
  match listedProviders with
  | inr e => (Some e, logService Error ("Failed to list providers: " +:+ e) s1)
  | inl providers =>
      let (listedPolicies, warnings2) := natsclient.ListPolicies policyFromJSON store in
      let s2 := appendLogs warnings2 s1 in
      match listedPolicies with
      | inr e => (Some e, logService Error ("Failed to list policies: " +:+ e) s2)
      | inl policies =>
          let cache :=
            mkService (router.providerMapOf providers) (policyMapOf policies) (world s2) in
          let (err, s3) := runEngine (router.SyncPolicies policies providers) cache in
          (None,
           match err with
           | Some e => logService Error ("Failed to sync policies: " +:+ e) s3
           | None => s3
           end)
      end
  end.

(** The callback that [watchProviders] hands to [WatchProviders]. *)
Definition providerCallback (provider : option InternetProvider.t) (op : KeyValueOp)
           (s : Service K) : Service K :=
  match op with
  | KeyValuePut =>
      match provider with
      | None => s
      | Some provider =>
          mkService (<[InternetProvider.ID provider := provider]> (providers s))
                    (policies s) (world s)
      end
  | KeyValueDelete =>
      match provider with
      | None => s
      | Some provider =>
          mkService (delete (InternetProvider.ID provider) (providers s))
                    (policies s) (world s)
      end
  | KeyValuePurge => s
  end.

(** One turn of the loop of [WatchProviders], with [providerCallback] as the
    callback. *)
Definition watchProvidersStep (update : option Update) (s : Service K) : Service K :=
  match update with
  | None => s
  | Some update =>
      if (10 <? String.length (Key update))%nat
         && String.eqb (substring 0 10 (Key update)) "providers."
      then
        match Operation update with
        | KeyValueDelete => providerCallback None (Operation update) s
        | _ =>
            match providerFromJSON (Value update) with
            | inr e => logService Warn ("Failed to unmarshal provider update: " +:+ e) s
            | inl provider => providerCallback (Some provider) (Operation update) s
            end
        end
      else s
  end.

(** The statistics of [GetStats]; [sync_interval] is the configured
    interval as [time.Duration] prints it. *)
Record Stats := mkStats {
  providers_count : Z;
  policies_count : Z;
  sync_interval : string;
  policies_per_provider : gmap string Z
}.

(** [policiesPerProvider[policy.ProviderID]++]. *)
Definition countPolicy (perProvider : gmap string Z) (policy : RoutingPolicy.t)
  : gmap string Z :=
  <[RoutingPolicy.ProviderID policy :=
      default 0 (perProvider !! RoutingPolicy.ProviderID policy) + 1]> perProvider.

(** The counting loop, over the cached policies in the order in which the
    [range] visits them. *)
Definition policiesPerProvider (visited : list RoutingPolicy.t) : gmap string Z :=
  foldl countPolicy ∅ visited.

Definition GetStats (interval : string) (s : Service K) : Stats :=
  mkStats (Z.of_nat (size (providers s)))
          (Z.of_nat (size (policies s)))
          interval
          (policiesPerProvider (map snd (map_to_list (policies s)))).

End Service.

End service.

(* ===================================================================== *)
(** * Further notions used to state the properties *)
(* ===================================================================== *)

Module notions.

Import gostrings strconv gonet router.

(** Every byte of the string is one that [sanitizeKey] keeps. *)
Fixpoint allKept (s : string) : bool :=
  match s with
  | EmptyString => true
  | String c rest => natsclient.keepsByte c && allKept rest
  end.

(** The commands of the engine for a source network. *)
Definition delFrom (srcNet : IPNet) : list string :=
  ["ip"; "rule"; "del"; "from"; IPNet_String srcNet].

Definition flushConntrack (srcNet : IPNet) : list string :=
  ["conntrack"; "-D"; "--src"; IPNet_String srcNet].

Definition addRule (srcNet : IPNet) (tableID : Z) : list string :=
  ["ip"; "rule"; "add"; "priority"; Itoa (calculatePriority srcNet);
   "table"; Itoa tableID; "from"; IPNet_String srcNet].

(** The number of rule listings among some commands. *)
Definition listings (cs : list (list string)) : nat :=
  length (List.filter (fun argv => bool_decide (argv = ipRuleShow)) cs).

(** Commands that only list the rules or delete by the source [srcNet]. *)
Definition removalOnly (srcNet : IPNet) (cs : list (list string)) : Prop :=
  Forall (fun argv => argv = ipRuleShow \/ argv = delFrom srcNet) cs.

(** Running [m] from [w] runs the commands [cs], in that order. *)
Definition ran {K A} (m : M K A) (w : World K) (cs : list (list string)) : Prop :=
  calls (snd (m w)) = calls w ++ cs.

(** The priorities of the lines of a listing that read as rules of the
    managed range, in listing order. *)
Definition managedPriorities (lines : list string) : list Z :=
  omap (fun l => option_map snd (managedLine l)) lines.

(** The priority that [cleanupDuplicateRules] reads off a stored rule. *)
Definition rulePriority (rule : string) : Z :=
  fst (Atoi (TrimSuffix (hd "" (Fields rule)) ":")).

(** A rule as the grouping loop stores it: it has a first field, and the
    priority read off it lies in the managed range. *)
Definition storedRule (rule : string) : Prop :=
  (1 <=? length (Fields rule))%nat = true /\ 2000 <= rulePriority rule <= 2032.

(** The priorities of the rules that follow the first rule of each
    group. *)
Definition duplicatePriorities (groups : list (string * list string)) : list Z :=
  concat (map (fun entry => map rulePriority (tail (snd entry))) groups).

(** The commands a full-sync pass may run for a desired state: the
    listing, a deletion by a priority of the managed range, and, for the
    resolved source of one of the policies, a deletion by that source, a
    flush of its connection tracking, or the addition of its rule at the
    computed priority with the table of the policy's provider. *)
Definition passCommand (policies : list RoutingPolicy.t)
           (providers : list InternetProvider.t) (argv : list string) : Prop :=
  argv = ipRuleShow
  \/ (exists priority, 2000 <= priority <= 2032 /\ argv = delPriority priority)
  \/ (exists policy srcNet,
         In policy policies
         /\ sourceNetwork (RoutingPolicy.ID policy) = Some srcNet
         /\ (argv = delFrom srcNet
             \/ argv = flushConntrack srcNet
             \/ exists provider,
                  In provider providers
                  /\ InternetProvider.ID provider = RoutingPolicy.ProviderID policy
                  /\ argv = addRule srcNet (InternetProvider.TableID provider))).

(** Running [m] from [w] only runs commands that satisfy [Q]. *)
Definition ranWithin {K A} (Q : list string -> Prop) (m : M K A) (w : World K) : Prop :=
  exists cs, ran m w cs /\ Forall Q cs.

(** A key of the policy namespace, as the loop of [ListPolicies] tests
    it. *)
Definition isPolicyKey (key : string) : bool :=
  (9 <? String.length key)%nat && String.eqb (substring 0 9 key) "policies.".

End notions.

(* ===================================================================== *)
(** * A reference bucket *)
(* ===================================================================== *)

(** An in-memory bucket, used to run the client on concrete scenarios: a
    finite map from keys to values in which every write succeeds, a read of
    an absent key fails, and listing the keys of the empty bucket fails
    with the "no keys found" error. *)
Module memstore.

Definition State := gmap string string.

Definition get (key : string) (m : State) : string + string :=
  match m !! key with
  | Some value => inl value
  | None => inr "nats: key not found"
  end.

Definition keys (m : State) : list string + string :=
  match map fst (map_to_list m) with
  | [] => inr "nats: no keys found"
  | ks => inl ks
  end.

#[global] Instance bucket : KeyValue State := {|
  kvGet := get;
  kvPut := fun key value m => (None, <[key := value]> m);
  kvDelete := fun key m => (None, delete key m);
  kvKeys := keys
|}.

End memstore.


(* ===================================================================== *)
(** * Properties *)
(* ===================================================================== *)

Import gostrings strconv gonet router spec.

(** ** The state monad *)

Section MonadFacts.

Context {K : Type} {P : Platform K}.

Lemma bind_run {A B} (m : M K A) (k : A -> M K B) (w : World K) :
  bind m k w = k (fst (m w)) (snd (m w)).
Proof. unfold bind. destruct (m w); reflexivity. Qed.

Lemma forEach_app {A} (f : A -> M K unit) (l1 l2 : list A) (w : World K) :
  forEach f (l1 ++ l2) w = forEach f l2 (snd (forEach f l1 w)).
Proof.
  revert w; induction l1 as [|a l1 IH]; intros w; simpl.
  - reflexivity.
  - rewrite !bind_run. apply IH.
Qed.

Lemma forEach_result {A} (f : A -> M K unit) (l : list A) (w : World K) :
  fst (forEach f l w) = tt.
Proof. destruct (fst (forEach f l w)); reflexivity. Qed.

Lemma execCommand_run (argv : list string) (w : World K) :
  execCommand argv w =
    (fst (exec argv (host w)),
     mkWorld (snd (exec argv (host w))) (calls w ++ [argv]) (logs w)).
Proof. unfold execCommand. destruct (exec argv (host w)); reflexivity. Qed.

End MonadFacts.

(** ** Priorities *)

Lemma calculatePriority_ones (srcNet : IPNet) :
  calculatePriority srcNet = 2000 + (32 - fst (Size (IPNet_Mask srcNet))).
Proof. unfold calculatePriority. destruct (Size _); reflexivity. Qed.

Lemma Size_CIDRMask (p : Z) :
  0 <= p <= 32 -> fst (Size (CIDRMask p 32)) = p.
Proof.
  intros Hp.
  assert (Hall : forallb (fun q => fst (Size (CIDRMask q 32)) =? q)
                         (map Z.of_nat (seq 0 33)) = true) by (vm_compute; reflexivity).
  rewrite forallb_forall in Hall.
  apply Z.eqb_eq, Hall.
  rewrite <- (Z2Nat.id p) by lia.
  apply in_map, in_seq. lia.
Qed.

(** C7. For every prefix length [p] in [0, 32] the priority of a network
    with a [p]-bit mask is [2000 + (32 - p)]: a /32 gets 2000, a /0 gets
    2032, and a longer prefix gets a strictly smaller priority number. *)
Theorem calculatePriority_prefix_length (ip : IP) (p : Z) :
  0 <= p <= 32 ->
  let priority q := calculatePriority (mkIPNet ip (CIDRMask q 32)) in
  priority p = 2000 + (32 - p)
  /\ priority 32 = 2000
  /\ priority 0 = 2032
  /\ (forall q, p < q <= 32 -> priority q < priority p).
Proof.
  intros Hp priority. unfold priority.
  rewrite !calculatePriority_ones. simpl IPNet_Mask.
  rewrite (Size_CIDRMask p) by lia.
  repeat split; try reflexivity.
  intros q Hq. rewrite calculatePriority_ones. simpl IPNet_Mask.
  rewrite (Size_CIDRMask q) by lia. lia.
Qed.

Lemma calculatePriority_prefix_length_witness :
  0 <= 24 <= 32
  /\ calculatePriority (mkIPNet [10; 0; 0; 0] (CIDRMask 24 32)) = 2000 + (32 - 24).
Proof.
  split; [lia | apply (calculatePriority_prefix_length [10; 0; 0; 0] 24); lia].
Defined.

(** ** The existence check *)


(** ** Validation of a policy *)

Lemma isEmpty_true (s : string) : isEmpty s = true <-> s = "".
Proof. destruct s; simpl; split; congruence. Qed.

Lemma isEmpty_false (s : string) : isEmpty s = false <-> s <> "".
Proof. destruct s; simpl; split; congruence. Qed.

(** C9, as the claim states it, fails: the IPv6 address 2001:db8::1 is
    neither an IPv4 address nor IPv4 CIDR notation, and validation
    accepts it. *)
Lemma Validate_accepts_IPv6_address :
  ~ (forall p : RoutingPolicy.t,
        models.Validate p = None
        <-> (isIPv4Address (RoutingPolicy.ID p) = true
             \/ isIPv4CIDR (RoutingPolicy.ID p) = true)).
Proof.
  intros claim.
  destruct (claim (RoutingPolicy.mk "2001:db8::1" "office" "starlink" "" true 0 0))
    as [accepted _].
  destruct accepted as [H | H]; [vm_compute; reflexivity | | ];
    vm_compute in H; discriminate.
Qed.

(** C9, amended. Validation accepts a policy exactly when its name and its
    provider ID are not empty and its ID parses, by [net.ParseCIDR] or by
    [net.ParseIP], as an IPv4 or IPv6 network or address; the ID
    ["not-an-ip"] is rejected whatever the other fields are. *)
Theorem Validate_accepts_iff :
  (forall p : RoutingPolicy.t,
      models.Validate p = None
      <-> (RoutingPolicy.Name p <> ""
           /\ RoutingPolicy.ProviderID p <> ""
           /\ (is_Some (ParseCIDR (RoutingPolicy.ID p))
               \/ is_Some (ParseIP (RoutingPolicy.ID p)))))
  /\ (forall name providerID description enabled created updated,
         models.Validate
           (RoutingPolicy.mk "not-an-ip" name providerID description enabled created updated)
         <> None).
Proof.
  split.
  - intros [id name pid desc en c u]; unfold models.Validate; simpl.
    destruct (isEmpty id) eqn:Eid.
    + apply isEmpty_true in Eid; subst id.
      split; [discriminate |].
      intros (_ & _ & [[x Hx] | [x Hx]]); vm_compute in Hx; discriminate.
    + destruct (isEmpty name) eqn:En.
      { apply isEmpty_true in En. split; [discriminate | tauto]. }
      destruct (isEmpty pid) eqn:Ep.
      { apply isEmpty_true in Ep. split; [discriminate | tauto]. }
      apply isEmpty_false in En, Ep.
      destruct (ParseCIDR id) eqn:Ec.
      { split; [intros _ | reflexivity]. repeat split; eauto. }
      destruct (ParseIP id) eqn:Ei.
      { split; [intros _ | reflexivity]. repeat split; eauto. }
      split; [discriminate |].
      intros (_ & _ & [[x Hx] | [x Hx]]); discriminate.
  - intros. unfold models.Validate; simpl.
    destruct (isEmpty name); [discriminate |].
    destruct (isEmpty providerID); [discriminate |].
    vm_compute. discriminate.
Qed.

(** ** The policy watch stream *)

(** C6 fails on the code. [WatchPolicies] hands the callback a [nil] policy
    for every delete notification, and the callback guards its delete
    branch with [policy != nil]: whatever the key, the payload and the
    state of the service, a delete notification leaves the cache and the
    kernel as they were, and no command is run. *)
Theorem watchPoliciesStep_delete_changes_nothing
        {K : Type} {P : Platform K} (FromJSON : string -> RoutingPolicy.t + string)
        (key value : string) (s : syncsvc.Service K) :
  syncsvc.watchPoliciesStep FromJSON
    (Some (syncsvc.mkUpdate key syncsvc.KeyValueDelete value)) s = s.
Proof.
  unfold syncsvc.watchPoliciesStep; simpl.
  destruct (_ && _); reflexivity.
Qed.

(** ** A policy whose provider is missing *)

Lemma providerMapOf_fold_None (providers : list InternetProvider.t)
      (m : gmap string InternetProvider.t) (id : string) :
  foldl (fun m provider => <[InternetProvider.ID provider := provider]> m) m providers
    !! id = None
  <-> m !! id = None
      /\ Forall (fun provider => InternetProvider.ID provider <> id) providers.
Proof.
  revert m; induction providers as [|p ps IH]; intros m; simpl.
  - split; [intros H; split; [exact H | constructor] | intros [H _]; exact H].
  - rewrite IH, lookup_insert_None. rewrite Forall_cons. tauto.
Qed.

Lemma providerMapOf_None (providers : list InternetProvider.t) (id : string) :
  providerMapOf providers !! id = None
  <-> Forall (fun provider => InternetProvider.ID provider <> id) providers.
Proof.
  unfold providerMapOf. rewrite providerMapOf_fold_None, lookup_empty. tauto.
Qed.

(** C8. When no provider of the set handed to the full-sync pass has the
    policy's provider ID, the reconciliation of that policy (enabled or
    not) runs no command at all and leaves the host, hence every rule for
    the policy's source, as it was: a warning is logged and nothing else
    happens. *)
Theorem syncPolicy_missing_provider
        {K : Type} {P : Platform K}
        (providers : list InternetProvider.t) (policy : RoutingPolicy.t) (w : World K) :
  Forall (fun provider =>
            InternetProvider.ID provider <> RoutingPolicy.ProviderID policy) providers ->
  syncPolicy (providerMapOf providers) policy w
  = (tt, mkWorld (host w) (calls w)
           (logs w ++ [(Warn, "Provider " +:+ RoutingPolicy.ProviderID policy
                              +:+ " not found for policy " +:+ RoutingPolicy.Name policy)])).
Proof.
  intros Hmissing. unfold syncPolicy.
  apply providerMapOf_None in Hmissing. rewrite Hmissing. reflexivity.
Qed.

Lemma syncPolicy_missing_provider_witness :
  let providers := [InternetProvider.mk "starlink" "Starlink" "eth1" 42 "192.0.2.1" "" 0 0] in
  let policy := RoutingPolicy.mk "10.0.0.0/24" "office" "fiber" "" true 0 0 in
  let w := linux.start (linux.mkRule 2008 "10.0.0.0/24" "42" :: linux.defaults) in
  Forall (fun provider =>
            InternetProvider.ID provider <> RoutingPolicy.ProviderID policy) providers
  /\ host (snd (syncPolicy (providerMapOf providers) policy w)) = host w
  /\ calls (snd (syncPolicy (providerMapOf providers) policy w)) = calls w.
Proof.
  intros providers policy w.
  assert (H : Forall (fun provider =>
            InternetProvider.ID provider <> RoutingPolicy.ProviderID policy) providers)
    by (repeat constructor; discriminate).
  split; [exact H |].
  rewrite (syncPolicy_missing_provider providers policy w H). split; reflexivity.
Defined.

(** ** Errors of the full-sync pass *)

Section SyncErrors.

Context {K : Type} {P : Platform K}.

Lemma SetupPolicy_unparsable (policy : RoutingPolicy.t)
      (provider : InternetProvider.t) (w : World K) :
  sourceNetwork (RoutingPolicy.ID policy) = None ->
  SetupPolicy policy provider w
  = (Some ("invalid policy ID as source IP/CIDR: " +:+ RoutingPolicy.ID policy), w).
Proof.
  intros Hparse. unfold SetupPolicy. rewrite Hparse.
  destruct (negb (RoutingPolicy.Enabled policy)); reflexivity.
Qed.

Lemma syncPolicy_unparsable (providerMap : gmap string InternetProvider.t)
      (policy : RoutingPolicy.t) (w : World K) :
  sourceNetwork (RoutingPolicy.ID policy) = None ->
  syncPolicy providerMap policy w
  = (tt, mkWorld (host w) (calls w) (logs w ++ [unparsableEntry providerMap policy])).
Proof.
  intros Hparse. unfold syncPolicy, unparsableEntry.
  destruct (providerMap !! RoutingPolicy.ProviderID policy) as [provider|].
  - rewrite bind_run, (SetupPolicy_unparsable _ _ _ Hparse). reflexivity.
  - reflexivity.
Qed.

Lemma SyncPolicies_returns_nil (policies : list RoutingPolicy.t)
      (providers : list InternetProvider.t) (w : World K) :
  fst (SyncPolicies policies providers w) = None.
Proof.
  unfold SyncPolicies. rewrite !bind_run. reflexivity.
Qed.

End SyncErrors.

(** C5, as the claim states it, fails: with a policy whose ID does not
    parse, and whose provider resolves, the pass still returns [nil]. *)
Lemma SyncPolicies_parse_error_not_returned :
  ~ (forall (policies : list RoutingPolicy.t) (providers : list InternetProvider.t)
            (w : World linux.State),
        Exists (fun policy => sourceNetwork (RoutingPolicy.ID policy) = None) policies ->
        fst (SyncPolicies policies providers w) <> None).
Proof.
  intros claim.
  apply (claim [RoutingPolicy.mk "not-an-ip" "office" "starlink" "" true 0 0]
               [InternetProvider.mk "starlink" "Starlink" "eth1" 42 "192.0.2.1" "" 0 0]
               (linux.start linux.defaults)).
  - constructor. vm_compute. reflexivity.
  - apply SyncPolicies_returns_nil.
Qed.

(** C5, amended. The full-sync pass returns [nil] whatever happens to its
    items. A policy whose ID does not parse costs one log line (the error
    of [SetupPolicy] at error level, or the warning for a missing
    provider) and runs no command; the policies after it are reconciled
    from the state the policies before it left. *)
Theorem SyncPolicies_parse_error_is_logged
        {K : Type} {P : Platform K}
        (providers : list InternetProvider.t)
        (before after : list RoutingPolicy.t) (policy : RoutingPolicy.t) (w : World K) :
  sourceNetwork (RoutingPolicy.ID policy) = None ->
  let policies := before ++ policy :: after in
  let providerMap := providerMapOf providers in
  let w1 := snd (forEach (syncPolicy providerMap) before w) in
  fst (SyncPolicies policies providers w) = None
  /\ forEach (syncPolicy providerMap) policies w
     = forEach (syncPolicy providerMap) after
         (mkWorld (host w1) (calls w1) (logs w1 ++ [unparsableEntry providerMap policy])).
Proof.
  intros Hparse policies providerMap w1. split.
  - apply SyncPolicies_returns_nil.
  - unfold policies. rewrite forEach_app. fold w1. simpl.
    rewrite bind_run, (syncPolicy_unparsable _ _ _ Hparse). reflexivity.
Qed.

Lemma SyncPolicies_parse_error_is_logged_witness :
  let providers := [InternetProvider.mk "starlink" "Starlink" "eth1" 42 "192.0.2.1" "" 0 0] in
  let bad := RoutingPolicy.mk "not-an-ip" "broken" "starlink" "" true 0 0 in
  let good := RoutingPolicy.mk "10.0.0.0/24" "office" "starlink" "" true 0 0 in
  sourceNetwork (RoutingPolicy.ID bad) = None
  /\ fst (SyncPolicies ([] ++ bad :: [good]) providers (linux.start linux.defaults)) = None.
Proof.
  intros providers bad good.
  assert (H : sourceNetwork (RoutingPolicy.ID bad) = None) by (vm_compute; reflexivity).
  split; [exact H |].
  exact (proj1 (SyncPolicies_parse_error_is_logged
                  providers [] [good] bad (linux.start linux.defaults) H)).
Defined.

(** ** The stale-cleanup pass *)

Lemma append_cons (c : ascii) (s t : string) :
  String c s +:+ t = String c (s +:+ t).
Proof. reflexivity. Qed.

Lemma append_empty_r (s : string) : s +:+ "" = s.
Proof.
  induction s as [|c s IH]; [reflexivity | rewrite append_cons, IH; reflexivity].
Qed.

Lemma revOnto_revOnto (s a b : string) :
  revOnto (revOnto s a) b = revOnto a (s +:+ b).
Proof.
  revert a; induction s as [|c s IH]; intros a.
  - reflexivity.
  - rewrite append_cons. simpl revOnto. rewrite IH. reflexivity.
Qed.

Lemma revOnto_append (c a b : string) :
  revOnto c (a +:+ b) = revOnto c a +:+ b.
Proof.
  revert a; induction c as [|x c IH]; intros a.
  - reflexivity.
  - simpl revOnto. rewrite <- append_cons. apply IH.
Qed.

Lemma strRev_revOnto (s cur : string) :
  strRev (revOnto s cur) = strRev cur +:+ s.
Proof.
  unfold strRev. rewrite revOnto_revOnto, append_empty_r.
  apply (revOnto_append cur "" s).
Qed.

Lemma Split_without_separator (src : string) :
  Contains src "/" = false -> Split src "/" = [src].
Proof.
  unfold Split.
  assert (H : forall cur, Contains src "/" = false ->
                          splitAux "/" 0 cur src = [strRev cur +:+ src]).
  { induction src as [|c s IH]; intros cur Hc.
    - simpl. rewrite append_empty_r. reflexivity.
    - simpl in Hc. apply orb_false_iff in Hc as [Hp Hs].
      simpl splitAux. rewrite Hp. simpl. rewrite (IH (String c cur) Hs).
      rewrite <- (strRev_revOnto (String c s) cur).
      change (revOnto (String c s) cur) with (revOnto s (String c cur)).
      rewrite strRev_revOnto. reflexivity. }
  intros Hc. rewrite (H "" Hc). reflexivity.
Qed.

Section StaleCleanup.

Context {K : Type} {P : Platform K}.

Lemma collectActiveSources_spec (policies : list RoutingPolicy.t)
      (acc : gset string) (w : World K) :
  let r := collectActiveSources policies acc w in
  host (snd r) = host w
  /\ calls (snd r) = calls w
  /\ (forall ip, ip ∈ fst r
                 <-> ip ∈ acc \/ exists policy, In policy policies
                                                /\ policyIP policy = Some ip).
Proof.
  revert acc w; induction policies as [|p ps IH]; intros acc w; simpl.
  - split; [|split]; auto. intros ip; split; [auto |]. intros [H | (x & [] & _)]; exact H.
  - unfold policyIP in *.
    destruct (sourceNetwork (RoutingPolicy.ID p)) as [srcNet|] eqn:Esrc.
    + destruct (IH ({[IP_String (IPNet_IP srcNet)]} ∪ acc) w) as (Hh & Hc & Hm).
      split; [|split]; auto. intros ip. rewrite Hm. clear Hm. split.
      * intros [Hin | (x & Hx & Hip)].
        -- apply elem_of_union in Hin as [Hin | Hin]; [right | left; exact Hin].
           apply elem_of_singleton in Hin. subst ip.
           exists p. split; [left; reflexivity | rewrite Esrc; reflexivity].
        -- right. exists x. split; [right; exact Hx | exact Hip].
      * intros [Hin | (x & [Hx | Hx] & Hip)].
        -- left. apply elem_of_union. right. exact Hin.
        -- subst x. rewrite Esrc in Hip. simpl in Hip. injection Hip as <-.
           left. apply elem_of_union. left. apply elem_of_singleton. reflexivity.
        -- right. exists x. split; assumption.
    + rewrite bind_run. simpl.
      destruct (IH acc (mkWorld (host w) (calls w)
                          (logs w ++ [(Warn, "Invalid policy ID as source IP/CIDR: "
                                             +:+ RoutingPolicy.ID p)])))
        as (Hh & Hc & Hm).
      split; [|split]; auto. intros ip. rewrite Hm. clear Hm. split.
      * intros [Hin | (x & Hx & Hip)]; [left; exact Hin |].
        right. exists x. split; [right; exact Hx | exact Hip].
      * intros [Hin | (x & [Hx | Hx] & Hip)]; [left; exact Hin | |].
        -- subst x. rewrite Esrc in Hip. discriminate.
        -- right. exists x. split; assumption.
Qed.

Lemma isActive_matches (A : gset string) (policies : list RoutingPolicy.t)
      (src : string) :
  (forall ip, ip ∈ A <-> exists policy, In policy policies
                                       /\ policyIP policy = Some ip) ->
  isActive A src = existsb (matchesPolicy src) policies.
Proof.
  intros HA. apply eq_true_iff_eq. rewrite existsb_exists. unfold isActive.
  split.
  - intros H. destruct (bool_decide (src ∈ A)) eqn:E1.
    + apply bool_decide_eq_true in E1. apply HA in E1 as (p & Hin & Hip).
      exists p. split; [exact Hin |]. unfold matchesPolicy. rewrite Hip.
      rewrite String.eqb_refl. reflexivity.
    + destruct (Contains src "/"); [| discriminate].
      apply bool_decide_eq_true in H. apply HA in H as (p & Hin & Hip).
      exists p. split; [exact Hin |]. unfold matchesPolicy. rewrite Hip.
      unfold ipPortion. rewrite String.eqb_refl, orb_true_r. reflexivity.
  - intros (p & Hin & Hm). unfold matchesPolicy in Hm.
    destruct (policyIP p) as [ip|] eqn:Hip; [| discriminate].
    destruct (bool_decide (src ∈ A)) eqn:E1; [reflexivity |].
    apply bool_decide_eq_false in E1.
    apply orb_true_iff in Hm as [Hm | Hm]; apply String.eqb_eq in Hm.
    + subst ip. exfalso. apply E1, HA. eauto.
    + destruct (Contains src "/") eqn:Ec.
      * apply bool_decide_eq_true. apply HA. exists p.
        unfold ipPortion in Hm. rewrite Hm. eauto.
      * exfalso. unfold ipPortion in Hm.
        rewrite (Split_without_separator src Ec) in Hm. simpl in Hm. subst ip.
        apply E1, HA. eauto.
Qed.

(** What the body of the stale loop runs on one line. *)
Lemma staleStep_run (A : gset string) (policies : list RoutingPolicy.t)
      (rawLine : string) (w : World K) :
  (forall ip, ip ∈ A <-> exists policy, In policy policies
                                       /\ policyIP policy = Some ip) ->
  match stalePriorities policies [rawLine] with
  | [] => staleStep A rawLine w = (tt, w)
  | priority :: _ =>
      staleStep A rawLine w
      = bind (execCommand (delPriority priority))
             (fun c => whenErr (snd c)
                         (fun e => logAt Warn ("Failed to remove stale rule: " +:+ e))) w
  end.
Proof.
  intros HA. unfold stalePriorities, staleStep, staleLine, managedRule. simpl.
  destruct (managedLine rawLine) as [[[line parts] priority]|]; [| reflexivity].
  destruct (HasPrefix line "0:" || HasPrefix line "32766:" || HasPrefix line "32767:");
    [reflexivity |].
  destruct (Contains line "from" && Contains line "lookup"); [| reflexivity].
  destruct (sourceAfterFrom parts) as [srcIP|]; simpl; [| reflexivity].
  destruct (isEmpty srcIP); simpl; [reflexivity |].
  rewrite (isActive_matches A policies srcIP HA).
  destruct (existsb (matchesPolicy srcIP) policies); reflexivity.
Qed.

Lemma stalePriorities_cons (policies : list RoutingPolicy.t)
      (rawLine : string) (lines : list string) :
  stalePriorities policies (rawLine :: lines)
  = stalePriorities policies [rawLine] ++ stalePriorities policies lines.
Proof.
  unfold stalePriorities. simpl.
  destruct (if staleLine policies rawLine then _ else _); reflexivity.
Qed.

Lemma stalePriorities_single (policies : list RoutingPolicy.t) (rawLine : string) :
  stalePriorities policies [rawLine] = []
  \/ exists priority, stalePriorities policies [rawLine] = [priority].
Proof.
  unfold stalePriorities. simpl.
  destruct (if staleLine policies rawLine then _ else _); eauto.
Qed.

Lemma whenErr_logs (err : error) (f : string -> string) (w : World K) :
  host (snd (whenErr err (fun e => logAt Warn (f e)) w)) = host w
  /\ calls (snd (whenErr err (fun e => logAt Warn (f e)) w)) = calls w.
Proof. destruct err; split; reflexivity. Qed.

Lemma forEach_staleStep_calls (A : gset string) (policies : list RoutingPolicy.t)
      (lines : list string) (w : World K) :
  (forall ip, ip ∈ A <-> exists policy, In policy policies
                                       /\ policyIP policy = Some ip) ->
  calls (snd (forEach (staleStep A) lines w))
  = calls w ++ map delPriority (stalePriorities policies lines).
Proof.
  intros HA. revert w; induction lines as [|l ls IH]; intros w.
  - simpl. rewrite app_nil_r. reflexivity.
  - simpl forEach. rewrite bind_run, IH, stalePriorities_cons, map_app, app_assoc.
    f_equal. clear IH.
    pose proof (staleStep_run A policies l w HA) as Hrun.
    destruct (stalePriorities_single policies l) as [E | [priority E]];
      rewrite E in Hrun |- *; rewrite Hrun.
    + simpl. rewrite app_nil_r. reflexivity.
    + rewrite bind_run, execCommand_run.
      rewrite (proj2 (whenErr_logs _ (fun e => "Failed to remove stale rule: " +:+ e) _)).
      reflexivity.
Qed.


Lemma managedLine_range (rawLine line : string) (parts : list string) (priority : Z) :
  managedLine rawLine = Some (line, parts, priority) -> 2000 <= priority <= 2032.
Proof.
  unfold managedLine.
  destruct (isEmpty _); [discriminate |].
  destruct (length _ =? 0)%nat; [discriminate |].
  destruct (Atoi _) as [p ok].
  destruct (negb ok); [discriminate |].
  destruct (negb (inManagedRange p)) eqn:Hr; [discriminate |].
  intros [= _ _ <-]. unfold inManagedRange in Hr.
  apply negb_false_iff, negb_true_iff, orb_false_iff in Hr as [H1 H2].
  apply Z.ltb_ge in H1, H2. lia.
Qed.

Lemma stalePriorities_range (policies : list RoutingPolicy.t) (lines : list string) :
  Forall (fun priority => 2000 <= priority <= 2032) (stalePriorities policies lines).
Proof.
  induction lines as [|l ls IH]; [constructor |].
  rewrite stalePriorities_cons. apply Forall_app. split; [| exact IH].
  unfold stalePriorities. simpl.
  destruct (staleLine policies l); [| constructor].
  unfold managedRule.
  destruct (managedLine l) as [[[line parts] priority]|] eqn:El; [| constructor].
  apply managedLine_range in El.
  destruct (_ || _); [constructor |].
  destruct (_ && _); [| constructor].
  destruct (sourceAfterFrom parts) as [srcIP|]; [| constructor].
  destruct (isEmpty srcIP); simpl; repeat constructor; lia.
Qed.

End StaleCleanup.

Lemma newCalls_app {K : Type} (w w' : World K) (cs : list (list string)) :
  calls w' = calls w ++ cs -> newCalls w w' = cs.
Proof. intros H. unfold newCalls. rewrite H. apply drop_app_length. Qed.



(** ** A pass over a converged listing *)

Section Converged.

Context {K : Type} {P : Platform K}.

Variable out : string.

Lemma listed_refl (w : World K) : listed 0 w w.
Proof. split; [reflexivity | simpl; rewrite app_nil_r; reflexivity]. Qed.

Lemma listed_trans (n m : nat) (w1 w2 w3 : World K) :
  listed n w1 w2 -> listed m w2 w3 -> listed (n + m) w1 w3.
Proof.
  intros [Hh1 Hc1] [Hh2 Hc2]. split; [congruence |].
  rewrite Hc2, Hc1, repeat_app, app_assoc. reflexivity.
Qed.


Lemma listed_logs (w : World K) (l : list (Level * string)) :
  listed 0 w (mkWorld (host w) (calls w) l).
Proof. split; [reflexivity | simpl; rewrite app_nil_r; reflexivity]. Qed.








Lemma reportRules_quiet (rules : list string) (i : Z) (w : World K) :
  listed 0 w (snd (reportRules i rules w)).
Proof.
  revert i w; induction rules as [|r rs IH]; intros i w.
  - apply listed_refl.
  - simpl reportRules. rewrite bind_run.
    eapply (listed_trans 0 0 w); [apply listed_logs | apply IH].
Qed.

Lemma reportViolations_quiet (groups : list (string * list string))
      (violations : Z) (w : World K) :
  listed 0 w (snd (reportViolations groups violations w)).
Proof.
  revert violations w; induction groups as [|[srcIP rules] gs IH]; intros v w.
  - apply listed_refl.
  - simpl reportViolations. destruct (1 <? length rules)%nat.
    + rewrite !bind_run.
      eapply (listed_trans 0 0 w); [apply listed_logs |].
      eapply (listed_trans 0 0 _); [apply reportRules_quiet | apply IH].
    + apply IH.
Qed.



End Converged.




(** ** Scenarios on the reference host *)

(** C1 fails on the code. The listing holds, at priority 2000, the rule of
    10.0.0.2 followed by two rules for 10.0.0.1. The duplicate cleanup
    finds the second rule of 10.0.0.1 and deletes it by priority: the host
    removes the first rule listed at priority 2000, which is the rule of
    10.0.0.2. The rule of 10.0.0.2 is added again, the first rule of
    10.0.0.1 already points at the right table, and the pass ends with two
    rules for 10.0.0.1 in the managed range, which its own validation pass
    reports. *)
Theorem SyncPolicies_leaves_duplicate_rules :
  let providers := [InternetProvider.mk "starlink" "Starlink" "eth1" 42 "192.0.2.1" "" 0 0] in
  let policies := [RoutingPolicy.mk "10.0.0.2" "camera" "starlink" "" true 0 0;
                   RoutingPolicy.mk "10.0.0.1" "printer" "starlink" "" true 0 0] in
  let st := [linux.mkRule 2000 "10.0.0.2" "42";
             linux.mkRule 2000 "10.0.0.1" "42";
             linux.mkRule 2000 "10.0.0.1" "99"] in
  let w := snd (SyncPolicies policies providers (linux.start st)) in
  calls w
  = [ipRuleShow;
     ["ip"; "rule"; "del"; "priority"; "2000"];
     ipRuleShow;
     ["ip"; "rule"; "add"; "priority"; "2000"; "table"; "42"; "from"; "10.0.0.2/32"];
     ["conntrack"; "-D"; "--src"; "10.0.0.2/32"];
     ipRuleShow; ipRuleShow; ipRuleShow]
  /\ host w
     = [linux.mkRule 2000 "10.0.0.1" "42";
        linux.mkRule 2000 "10.0.0.1" "99";
        linux.mkRule 2000 "10.0.0.2" "42"]
  /\ length (managedRulesFor "10.0.0.1" (host w)) = 2%nat
  /\ In (Warn, "VALIDATION VIOLATION: Found 2 rules for source 10.0.0.1:") (logs w).
Proof.
  vm_compute. repeat split; try reflexivity. left. reflexivity.
Qed.

(** C2 fails on the code. The operator's rule for 10.0.0.1 sits at priority
    100, outside the managed range. Removing the policy 10.0.0.1 runs
    [ip rule del priority 100]; reconciling the same policy disabled runs
    [ip rule del from 10.0.0.1/32]; either way the rule at priority 100 is
    gone from the host. *)
Theorem per_source_removal_leaves_managed_range :
  let provider := InternetProvider.mk "starlink" "Starlink" "eth1" 42 "192.0.2.1" "" 0 0 in
  let policy enabled := RoutingPolicy.mk "10.0.0.1" "printer" "starlink" "" enabled 0 0 in
  let st := [linux.mkRule 0 "all" "local";
             linux.mkRule 100 "10.0.0.1" "7";
             linux.mkRule 32766 "all" "main";
             linux.mkRule 32767 "all" "default"] in
  let removed := snd (RemovePolicy (policy true) provider (linux.start st)) in
  let disabled := snd (SyncPolicies [policy false] [provider] (linux.start st)) in
  inManagedRange 100 = false
  /\ calls removed
     = [ipRuleShow;
        ["ip"; "rule"; "del"; "priority"; "100"];
        ["conntrack"; "-D"; "--src"; "10.0.0.1/32"]]
  /\ host removed = linux.defaults
  /\ calls disabled
     = [ipRuleShow;
        ipRuleShow;
        ["ip"; "rule"; "del"; "from"; "10.0.0.1/32"];
        ipRuleShow;
        ["conntrack"; "-D"; "--src"; "10.0.0.1/32"];
        ipRuleShow; ipRuleShow]
  /\ host disabled = linux.defaults.
Proof.
  vm_compute. repeat split; reflexivity.
Qed.

(** The end-to-end scenario of the specification: one provider with table
    42 and one enabled policy for 10.0.0.0/24 give exactly one rule, at
    priority 2008. *)
Example SyncPolicies_end_to_end :
  let providers := [InternetProvider.mk "starlink" "Starlink" "eth1" 42 "192.0.2.1" "" 0 0] in
  let policies := [RoutingPolicy.mk "10.0.0.0/24" "office" "starlink" "" true 0 0] in
  host (snd (SyncPolicies policies providers (linux.start linux.defaults)))
  = [linux.mkRule 0 "all" "local";
     linux.mkRule 2008 "10.0.0.0/24" "42";
     linux.mkRule 32766 "all" "main";
     linux.mkRule 32767 "all" "default"].
Proof. vm_compute. reflexivity. Qed.

(** ** Further properties of the code *)

Import notions.

(** ** The store client *)

Lemma keepsByte_ascii (c : ascii) :
  natsclient.keepsByte c = true -> (byteOf c <? 128) = true.
Proof.
  unfold natsclient.keepsByte, utf8.between. intros H. apply Z.ltb_lt.
  repeat (apply orb_true_iff in H as [H | H]);
    repeat (apply andb_true_iff in H as [? H]);
    repeat match goal with
           | H : (_ <=? _) = true |- _ => apply Z.leb_le in H
           | H : (_ =? _) = true |- _ => apply Z.eqb_eq in H
           end; lia.
Qed.

Lemma keepsByte_underscore : natsclient.keepsByte "_"%char = true.
Proof. reflexivity. Qed.

Lemma sanitizeFrom_kept (skip : nat) (key : string) :
  allKept (natsclient.sanitizeFrom skip key) = true.
Proof.
  revert skip; induction key as [|c rest IH]; intros skip; [reflexivity |].
  destruct skip as [|k]; simpl; [| apply IH].
  rewrite IH, andb_true_r.
  destruct (natsclient.keepsByte c) eqn:Hc; [exact Hc | reflexivity].
Qed.

Lemma sanitizeFrom_clean (key : string) :
  allKept key = true -> natsclient.sanitizeFrom 0 key = key.
Proof.
  induction key as [|c rest IH]; intros H; [reflexivity |].
  simpl in H. apply andb_true_iff in H as [Hc Hrest].
  simpl. rewrite Hc, (keepsByte_ascii c Hc). simpl.
  rewrite (IH Hrest). reflexivity.
Qed.

Lemma sanitizeFrom_length (skip : nat) (key : string) :
  (String.length (natsclient.sanitizeFrom skip key) <= String.length key)%nat.
Proof.
  revert skip; induction key as [|c rest IH]; intros skip; [reflexivity |].
  destruct skip as [|k]; simpl.
  - apply le_n_S, IH.
  - etransitivity; [apply IH | lia].
Qed.

Lemma sanitizeKey_twice (key : string) :
  natsclient.sanitizeKey (natsclient.sanitizeKey key) = natsclient.sanitizeKey key.
Proof. apply sanitizeFrom_clean, sanitizeFrom_kept. Qed.

(** X1. [sanitizeKey] returns a key made only of letters, digits, dots and
    underscores, never longer than the key it is given; a key that is
    of that form, and no other, is returned unchanged, so sanitizing twice
    is the same as sanitizing once. *)
Theorem sanitizeKey_idempotent (key : string) :
  allKept (natsclient.sanitizeKey key) = true
  /\ (String.length (natsclient.sanitizeKey key) <= String.length key)%nat
  /\ (natsclient.sanitizeKey key = key <-> allKept key = true)
  /\ natsclient.sanitizeKey (natsclient.sanitizeKey key) = natsclient.sanitizeKey key.
Proof.
  unfold natsclient.sanitizeKey.
  split; [apply sanitizeFrom_kept |].
  split; [apply sanitizeFrom_length |].
  split.
  - split; [| apply sanitizeFrom_clean].
    intros H. rewrite <- H. apply sanitizeFrom_kept.
  - apply sanitizeKey_twice.
Qed.

Section StoreClient.

Context {S : Type} {KV : KeyValue S}.

Lemma GetPolicy_at_key (fromJSON : string -> RoutingPolicy.t + string)
      (id value : string) (s : S) :
  kvGet ("policies." +:+ natsclient.sanitizeKey id) s = inl value ->
  natsclient.GetPolicy fromJSON id s
  = match fromJSON value with
    | inl policy => inl policy
    | inr e => inr ("failed to unmarshal policy: " +:+ e)
    end.
Proof.
  intros Hget. unfold natsclient.GetPolicy. rewrite Hget.
  destruct (fromJSON value); reflexivity.
Qed.

Lemma listPoliciesLoop_accounts (fromJSON : string -> RoutingPolicy.t + string)
      (keys : list string) (s : S) :
  (length (fst (natsclient.listPoliciesLoop fromJSON keys s))
   + length (snd (natsclient.listPoliciesLoop fromJSON keys s)))%nat
  = length (List.filter isPolicyKey keys).
Proof.
  induction keys as [|key rest IH]; [reflexivity |].
  simpl. destruct (natsclient.listPoliciesLoop fromJSON rest s) as [policies warnings].
  simpl in IH. unfold isPolicyKey at 1.
  destruct ((9 <? String.length key)%nat && String.eqb (substring 0 9 key) "policies.").
  - destruct (natsclient.GetPolicy fromJSON _ s); simpl; lia.
  - simpl. exact IH.
Qed.

End StoreClient.

(** X2. A policy stored with [StorePolicy] is read back by [GetPolicy]
    under its own ID, and under the sanitized ID that [ListPolicies] takes
    from the key, as whatever [FromJSON] makes of the bytes [ToJSON] gave,
    on any bucket that returns under a key the value last put there. *)
Theorem StorePolicy_then_GetPolicy
        {S : Type} {KV : KeyValue S}
        (toJSON : RoutingPolicy.t -> string + string)
        (fromJSON : string -> RoutingPolicy.t + string)
        (policy : RoutingPolicy.t) (s s' : S) :
  (forall key value s0 s1, kvPut key value s0 = (None, s1) -> kvGet key s1 = inl value) ->
  natsclient.StorePolicy toJSON policy s = (None, s') ->
  exists data,
    toJSON policy = inl data
    /\ natsclient.GetPolicy fromJSON (RoutingPolicy.ID policy) s'
       = match fromJSON data with
         | inl stored => inl stored
         | inr e => inr ("failed to unmarshal policy: " +:+ e)
         end
    /\ natsclient.GetPolicy fromJSON (natsclient.sanitizeKey (RoutingPolicy.ID policy)) s'
       = natsclient.GetPolicy fromJSON (RoutingPolicy.ID policy) s'.
Proof.
  intros Hlaw Hstore. unfold natsclient.StorePolicy in Hstore.
  destruct (toJSON policy) as [data | e]; [| discriminate].
  destruct (kvPut _ data s) as [[e |] s1] eqn:Hput; [discriminate |].
  injection Hstore as <-. exists data. split; [reflexivity |].
  apply Hlaw in Hput.
  rewrite (GetPolicy_at_key fromJSON (RoutingPolicy.ID policy) data s1 Hput).
  split; [reflexivity |].
  apply GetPolicy_at_key.
  rewrite sanitizeKey_twice.
  exact Hput.
Qed.

Lemma memstore_put_get (key value : string) (s0 s1 : memstore.State) :
  kvPut key value s0 = (None, s1) -> kvGet key s1 = inl value.
Proof.
  intros H. injection H as <-.
  change (memstore.get key (<[key := value]> s0) = inl value).
  unfold memstore.get, memstore.State in *.
  rewrite lookup_insert_eq. reflexivity.
Qed.

Lemma StorePolicy_then_GetPolicy_witness :
  let toJSON := fun policy : RoutingPolicy.t => inl (RoutingPolicy.Name policy) : string + string in
  let fromJSON := fun value : string =>
                    inl (RoutingPolicy.mk "10.0.0.0/24" value "starlink" "" true 0 0)
                    : RoutingPolicy.t + string in
  let policy := RoutingPolicy.mk "10.0.0.0/24" "office" "starlink" "" true 0 0 in
  let s' := snd (natsclient.StorePolicy toJSON policy (∅ : memstore.State)) in
  natsclient.StorePolicy toJSON policy (∅ : memstore.State) = (None, s')
  /\ natsclient.GetPolicy fromJSON "10.0.0.0/24" s' = inl policy.
Proof.
  intros toJSON fromJSON policy s'.
  assert (Hstore : natsclient.StorePolicy toJSON policy (∅ : memstore.State) = (None, s'))
    by reflexivity.
  split; [exact Hstore |].
  destruct (StorePolicy_then_GetPolicy toJSON fromJSON policy ∅ s') as (data & Hdata & Hget & _).
  - exact memstore_put_get.
  - exact Hstore.
  - transitivity (natsclient.GetPolicy fromJSON (RoutingPolicy.ID policy) s');
      [reflexivity |].
    rewrite Hget. unfold toJSON in Hdata. injection Hdata as <-. reflexivity.
Defined.

(** X3. [ListPolicies] answers an empty list, not an error, when the
    bucket reports that it has no keys, and otherwise accounts for every
    key of the policy namespace by exactly one policy returned or one
    warning logged: an entry that cannot be read or decoded is skipped and
    never aborts the listing. *)
Theorem ListPolicies_accounts_for_keys
        {S : Type} {KV : KeyValue S}
        (fromJSON : string -> RoutingPolicy.t + string) (s : S) :
  match kvKeys s with
  | inr e =>
      natsclient.ListPolicies fromJSON s
      = if Contains e "no keys found" then (inl [], [])
        else (inr ("failed to list policy keys: " +:+ e), [])
  | inl keys =>
      exists policies warnings,
        natsclient.ListPolicies fromJSON s = (inl policies, warnings)
        /\ (length policies + length warnings)%nat = length (List.filter isPolicyKey keys)
  end.
Proof.
  unfold natsclient.ListPolicies.
  destruct (kvKeys s) as [keys | e]; [| reflexivity].
  pose proof (listPoliciesLoop_accounts fromJSON keys s) as H.
  destruct (natsclient.listPoliciesLoop fromJSON keys s) as [policies warnings].
  exists policies, warnings. split; [reflexivity | exact H].
Qed.

(** ** The sync service *)

Lemma policyMapOf_fold (policies : list RoutingPolicy.t)
      (m : gmap string RoutingPolicy.t) (id : string) :
  (foldl (fun m policy => <[RoutingPolicy.ID policy := policy]> m) m policies !! id = None
   <-> m !! id = None
       /\ Forall (fun policy => RoutingPolicy.ID policy <> id) policies)
  /\ (forall policy,
         foldl (fun m policy => <[RoutingPolicy.ID policy := policy]> m) m policies !! id
         = Some policy ->
         m !! id = Some policy \/ (In policy policies /\ RoutingPolicy.ID policy = id)).
Proof.
  revert m; induction policies as [|p ps IH]; intros m; simpl.
  - split; [| auto]. split; [intros H; split; [exact H | constructor] | tauto].
  - destruct (IH (<[RoutingPolicy.ID p := p]> m)) as [IHn IHs]. split.
    + rewrite IHn, lookup_insert_None, Forall_cons. tauto.
    + intros policy Hl. apply IHs in Hl as [Hl | [Hin Hid]]; [| tauto].
      apply lookup_insert_Some in Hl as [[Hid <-] | [_ Hl]]; [| tauto].
      right. split; [left; reflexivity | exact Hid].
Qed.

Lemma policyMapOf_lookup (policies : list RoutingPolicy.t) (id : string) :
  (service.policyMapOf policies !! id = None
   <-> Forall (fun policy => RoutingPolicy.ID policy <> id) policies)
  /\ (forall policy, service.policyMapOf policies !! id = Some policy ->
                     In policy policies /\ RoutingPolicy.ID policy = id).
Proof.
  unfold service.policyMapOf.
  destruct (policyMapOf_fold policies ∅ id) as [Hn Hs]. split.
  - rewrite Hn, lookup_empty. tauto.
  - intros policy Hl. apply Hs in Hl as [Hl | Hl]; [| exact Hl].
    rewrite lookup_empty in Hl. discriminate.
Qed.

Section ServiceFacts.

Context {K : Type} {P : Platform K} {S : Type} {KV : KeyValue S}.

Lemma runEngine_cache {A} (m : M K A) (s : syncsvc.Service K) :
  syncsvc.providers (snd (syncsvc.runEngine m s)) = syncsvc.providers s
  /\ syncsvc.policies (snd (syncsvc.runEngine m s)) = syncsvc.policies s
  /\ syncsvc.world (snd (syncsvc.runEngine m s)) = snd (m (syncsvc.world s)).
Proof.
  unfold syncsvc.runEngine. destruct (m (syncsvc.world s)). repeat split.
Qed.

Lemma runEngine_result {A} (m : M K A) (s : syncsvc.Service K) :
  fst (syncsvc.runEngine m s) = fst (m (syncsvc.world s)).
Proof.
  unfold syncsvc.runEngine. destruct (m (syncsvc.world s)). reflexivity.
Qed.

End ServiceFacts.

(** X4. [performFullSync] replaces the cache wholesale. When both listings
    succeed it returns [nil] whatever the engine did, and afterwards the
    policy cache holds an entry under an ID exactly when a listed policy
    has that ID, and every entry is a listed policy stored under its own
    ID, whatever was cached before. When a listing fails it returns that
    error and leaves the cache, the host and the command trace as they
    were. *)
Theorem performFullSync_replaces_cache
        {K : Type} {P : Platform K} {S : Type} {KV : KeyValue S}
        (providerFromJSON : string -> InternetProvider.t + string)
        (policyFromJSON : string -> RoutingPolicy.t + string)
        (store : S) (s : syncsvc.Service K) :
  let result := service.performFullSync providerFromJSON policyFromJSON store s in
  let unchanged :=
    syncsvc.providers (snd result) = syncsvc.providers s
    /\ syncsvc.policies (snd result) = syncsvc.policies s
    /\ host (syncsvc.world (snd result)) = host (syncsvc.world s)
    /\ calls (syncsvc.world (snd result)) = calls (syncsvc.world s) in
  match fst (natsclient.ListProviders providerFromJSON store),
        fst (natsclient.ListPolicies policyFromJSON store) with
  | inr e, _ => fst result = Some e /\ unchanged
  | inl _, inr e => fst result = Some e /\ unchanged
  | inl providers, inl policies =>
      fst result = None
      /\ syncsvc.providers (snd result) = providerMapOf providers
      /\ (forall id,
             match syncsvc.policies (snd result) !! id with
             | Some policy => In policy policies /\ RoutingPolicy.ID policy = id
             | None => Forall (fun policy => RoutingPolicy.ID policy <> id) policies
             end)
  end.
Proof.
  intros result unchanged. unfold unchanged, result, service.performFullSync.
  destruct (natsclient.ListProviders providerFromJSON store) as [[providers | e] warnings1];
    cbn [fst snd].
  2: { repeat split. }
  destruct (natsclient.ListPolicies policyFromJSON store) as [[policies | e] warnings2];
    cbn [fst snd].
  2: { repeat split. }
  match goal with
  | |- context [syncsvc.runEngine ?m ?c] =>
      pose proof (runEngine_cache m c) as (Hp & Hq & _);
      destruct (syncsvc.runEngine m c) as [err s3]
  end.
  cbn [fst snd] in *.
  assert (Hcache : syncsvc.providers
                     (match err with
                      | Some e => syncsvc.logService Error ("Failed to sync policies: " +:+ e) s3
                      | None => s3
                      end) = providerMapOf providers
                   /\ syncsvc.policies
                        (match err with
                         | Some e => syncsvc.logService Error ("Failed to sync policies: " +:+ e) s3
                         | None => s3
                         end) = service.policyMapOf policies).
  { destruct err; simpl; split; assumption. }
  destruct Hcache as [Hc1 Hc2].
  split; [reflexivity |]. split; [exact Hc1 |].
  intros id. rewrite Hc2.
  destruct (policyMapOf_lookup policies id) as [Hn Hs].
  destruct (service.policyMapOf policies !! id) as [policy|];
    [apply Hs; reflexivity | apply Hn; reflexivity].
Qed.

(** X5. A provider notification only touches the provider cache: whatever
    the update and the payload, one turn of the provider watch runs no
    command and leaves the host and the policy cache as they were. A
    delete notification, which reaches the callback without its provider,
    leaves the whole service state as it was. *)
Theorem watchProvidersStep_only_caches
        {K : Type} {P : Platform K}
        (providerFromJSON : string -> InternetProvider.t + string)
        (update : option syncsvc.Update) (s : syncsvc.Service K) :
  let s' := service.watchProvidersStep providerFromJSON update s in
  syncsvc.policies s' = syncsvc.policies s
  /\ host (syncsvc.world s') = host (syncsvc.world s)
  /\ calls (syncsvc.world s') = calls (syncsvc.world s)
  /\ (forall key value,
         service.watchProvidersStep providerFromJSON
           (Some (syncsvc.mkUpdate key syncsvc.KeyValueDelete value)) s = s).
Proof.
  intros s'. unfold s', service.watchProvidersStep.
  assert (Hdel : forall key value,
             service.watchProvidersStep providerFromJSON
               (Some (syncsvc.mkUpdate key syncsvc.KeyValueDelete value)) s = s).
  { intros key value. unfold service.watchProvidersStep; simpl.
    destruct (_ && _); reflexivity. }
  destruct update as [[key op value]|]; simpl; [| repeat split; exact Hdel].
  destruct (_ && _); [| repeat split; exact Hdel].
  destruct op; simpl; try (repeat split; exact Hdel);
    destruct (providerFromJSON value); simpl; repeat split; exact Hdel.
Qed.

(** X6. A put notification for a policy whose payload decodes is always
    cached: afterwards the policy cache maps the policy's ID to the policy
    and the provider cache is as it was. The kernel sees exactly the
    per-policy reconciliation with the cached provider; when the provider
    is not cached, no command is run. *)
Theorem watchPoliciesStep_put_caches
        {K : Type} {P : Platform K}
        (FromJSON : string -> RoutingPolicy.t + string)
        (key value : string) (policy : RoutingPolicy.t) (s : syncsvc.Service K) :
  isPolicyKey key = true ->
  FromJSON value = inl policy ->
  let s' := syncsvc.watchPoliciesStep FromJSON
              (Some (syncsvc.mkUpdate key syncsvc.KeyValuePut value)) s in
  syncsvc.policies s' !! RoutingPolicy.ID policy = Some policy
  /\ syncsvc.providers s' = syncsvc.providers s
  /\ match syncsvc.providers s !! RoutingPolicy.ProviderID policy with
     | None =>
         host (syncsvc.world s') = host (syncsvc.world s)
         /\ calls (syncsvc.world s') = calls (syncsvc.world s)
     | Some provider =>
         host (syncsvc.world s') = host (snd (SetupPolicy policy provider (syncsvc.world s)))
         /\ calls (syncsvc.world s')
            = calls (snd (SetupPolicy policy provider (syncsvc.world s)))
     end.
Proof.
  intros Hkey Hjson s'. unfold s', syncsvc.watchPoliciesStep.
  cbn [syncsvc.Key syncsvc.Operation syncsvc.Value].
  unfold isPolicyKey in Hkey. rewrite Hkey, Hjson.
  unfold syncsvc.policyCallback. cbn [syncsvc.providers syncsvc.policies syncsvc.world].
  destruct (syncsvc.providers s !! RoutingPolicy.ProviderID policy) as [provider|].
  - match goal with
    | |- context [syncsvc.runEngine ?m ?c] =>
        pose proof (runEngine_cache m c) as (Hp & Hq & Hw);
        destruct (syncsvc.runEngine m c) as [err s2]
    end.
    cbn [fst snd syncsvc.providers syncsvc.policies syncsvc.world] in *.
    destruct err; simpl; rewrite ?Hp, ?Hq, ?Hw;
      (split; [apply lookup_insert_eq | repeat split]).
  - simpl. split; [apply lookup_insert_eq | repeat split].
Qed.

Lemma watchPoliciesStep_put_caches_witness :
  let FromJSON := fun value : string =>
                    inl (RoutingPolicy.mk value "office" "starlink" "" true 0 0)
                    : RoutingPolicy.t + string in
  let s := syncsvc.mkService (∅ : gmap string InternetProvider.t)
                             (∅ : gmap string RoutingPolicy.t)
                             (linux.start linux.defaults) in
  let policy := RoutingPolicy.mk "10.0.0.0/24" "office" "starlink" "" true 0 0 in
  isPolicyKey "policies.10.0.0.0_24" = true
  /\ FromJSON "10.0.0.0/24" = inl policy
  /\ syncsvc.policies
       (syncsvc.watchPoliciesStep FromJSON
          (Some (syncsvc.mkUpdate "policies.10.0.0.0_24" syncsvc.KeyValuePut "10.0.0.0/24")) s)
     !! "10.0.0.0/24" = Some policy.
Proof.
  intros FromJSON s policy.
  assert (Hkey : isPolicyKey "policies.10.0.0.0_24" = true) by reflexivity.
  assert (Hjson : FromJSON "10.0.0.0/24" = inl policy) by reflexivity.
  split; [exact Hkey |]. split; [exact Hjson |].
  exact (proj1 (watchPoliciesStep_put_caches FromJSON "policies.10.0.0.0_24" "10.0.0.0/24"
                  policy s Hkey Hjson)).
Defined.

Lemma policiesPerProvider_fold (visited : list RoutingPolicy.t)
      (acc : gmap string Z) (providerID : string) :
  default 0 (foldl service.countPolicy acc visited !! providerID)
  = default 0 (acc !! providerID)
    + Z.of_nat (length (List.filter
                          (fun policy => String.eqb (RoutingPolicy.ProviderID policy) providerID)
                          visited))
  /\ (foldl service.countPolicy acc visited !! providerID = None
      <-> acc !! providerID = None
          /\ Forall (fun policy => RoutingPolicy.ProviderID policy <> providerID) visited).
Proof.
  revert acc; induction visited as [|p ps IH]; intros acc; simpl.
  - split; [lia |]. split; [intros H; split; [exact H | constructor] | tauto].
  - destruct (IH (service.countPolicy acc p)) as [IHc IHn]. split.
    + rewrite IHc. unfold service.countPolicy.
      destruct (String.eqb_spec (RoutingPolicy.ProviderID p) providerID) as [E | E].
      * rewrite E, lookup_insert_eq. simpl. lia.
      * rewrite lookup_insert_ne by exact E. simpl. lia.
    + rewrite IHn, Forall_cons. unfold service.countPolicy.
      rewrite lookup_insert_None. tauto.
Qed.

Lemma referring_nil (visited : list RoutingPolicy.t) (providerID : string) :
  List.filter (fun policy => String.eqb (RoutingPolicy.ProviderID policy) providerID)
              visited = []
  <-> Forall (fun policy => RoutingPolicy.ProviderID policy <> providerID) visited.
Proof.
  induction visited as [|p ps IH]; simpl.
  - split; [constructor | reflexivity].
  - rewrite Forall_cons.
    destruct (String.eqb_spec (RoutingPolicy.ProviderID p) providerID) as [E | E].
    + split; [discriminate | intros [H _]; contradiction].
    + rewrite IH. tauto.
Qed.

(** X7. In the statistics of [GetStats] the entry of a provider ID under
    [policies_per_provider] is the number of cached policies that refer to
    it, which is at least one; a provider ID no cached policy refers to has
    no entry. [policies_count] is the number of cached policies. *)
Theorem GetStats_counts_policies
        {K : Type} (interval : string) (s : syncsvc.Service K) (providerID : string) :
  let stats := service.GetStats interval s in
  let cached := map snd (map_to_list (syncsvc.policies s)) in
  let referring :=
    List.filter (fun policy => String.eqb (RoutingPolicy.ProviderID policy) providerID)
                cached in
  service.policies_count stats = Z.of_nat (length cached)
  /\ match service.policies_per_provider stats !! providerID with
     | Some n => n = Z.of_nat (length referring) /\ 0 < n
     | None => referring = []
     end.
Proof.
  intros stats cached referring. split.
  - unfold stats, cached. simpl. rewrite length_map, length_map_to_list. reflexivity.
  - unfold stats. simpl. fold cached.
    unfold service.policiesPerProvider.
    destruct (policiesPerProvider_fold cached ∅ providerID) as [Hc Hn].
    rewrite lookup_empty in Hc, Hn. fold referring in Hc.
    pose proof (referring_nil cached providerID) as Hnil. fold referring in Hnil.
    destruct (foldl service.countPolicy ∅ cached !! providerID) as [n|] eqn:El.
    + simpl in Hc. split; [lia |].
      destruct referring as [|r rs]; [| simpl in Hc; lia].
      exfalso.
      assert (Hnone : Some n = None); [| discriminate Hnone].
      apply Hn. split; [reflexivity | apply Hnil; reflexivity].
    + apply Hnil. apply (proj1 Hn eq_refl).
Qed.

(** ** Command traces of the engine *)

Section Traces.

Context {K : Type} {P : Platform K}.

Lemma ran_ret {A} (a : A) (w : World K) : ran (ret a) w [].
Proof. unfold ran. simpl. rewrite app_nil_r. reflexivity. Qed.

Lemma ran_logAt (lv : Level) (msg : string) (w : World K) : ran (logAt lv msg) w [].
Proof. unfold ran. simpl. rewrite app_nil_r. reflexivity. Qed.

Lemma ran_execCommand (argv : list string) (w : World K) :
  ran (execCommand argv) w [argv].
Proof. unfold ran. rewrite execCommand_run. reflexivity. Qed.

Lemma ran_bind {A B} (m : M K A) (k : A -> M K B) (w : World K)
      (cs1 cs2 : list (list string)) :
  ran m w cs1 -> ran (k (fst (m w))) (snd (m w)) cs2 -> ran (bind m k) w (cs1 ++ cs2).
Proof.
  unfold ran. intros H1 H2. rewrite bind_run, H2, H1, app_assoc. reflexivity.
Qed.

Lemma ran_whenErr (err : error) (lv : Level) (f : string -> string) (w : World K) :
  ran (whenErr err (fun e => logAt lv (f e))) w [].
Proof. destruct err; [apply ran_logAt | apply ran_ret]. Qed.

Lemma ran_newCalls {A} (m : M K A) (w : World K) (cs : list (list string)) :
  ran m w cs -> newCalls w (snd (m w)) = cs.
Proof. apply newCalls_app. Qed.

Lemma listings_app (cs1 cs2 : list (list string)) :
  listings (cs1 ++ cs2) = (listings cs1 + listings cs2)%nat.
Proof. unfold listings. rewrite List.filter_app, length_app. reflexivity. Qed.

Lemma listings_delFrom (srcNet : IPNet) (n : nat) :
  listings (repeat (delFrom srcNet) n) = 0%nat.
Proof. induction n as [|n IH]; [reflexivity | exact IH]. Qed.

Lemma removalOnly_delFrom (srcNet : IPNet) (n : nat) :
  removalOnly srcNet (repeat (delFrom srcNet) n).
Proof.
  apply Forall_forall. intros argv Hin.
  apply list_elem_of_In, repeat_spec in Hin. right. exact Hin.
Qed.

Lemma removeFirstRule_ran (srcNet : IPNet) (lines : list string) (w : World K) :
  exists n, ran (removeFirstRule srcNet lines) w (repeat (delFrom srcNet) n).
Proof.
  revert w; induction lines as [|l ls IH]; intros w.
  - exists 0%nat. apply ran_ret.
  - simpl removeFirstRule. destruct (isEmpty (TrimSpace l)); [apply IH |].
    destruct (_ && _); [| apply IH].
    pose proof (ran_execCommand (delFrom srcNet) w) as Hdel.
    destruct (snd (fst (execCommand (delFrom srcNet) w))) as [e|] eqn:Eerr.
    + destruct (IH (snd (logAt Warn ("Failed to remove rule: " +:+ e)
                           (snd (execCommand (delFrom srcNet) w))))) as [n Hn].
      exists (S n). change (repeat (delFrom srcNet) (S n))
        with ([delFrom srcNet] ++ ([] ++ repeat (delFrom srcNet) n)).
      apply ran_bind; [exact Hdel |]. unfold delFrom in Eerr |- *. rewrite Eerr.
      apply ran_bind; [apply ran_logAt | exact Hn].
    + exists 1%nat. change (repeat (delFrom srcNet) 1) with ([delFrom srcNet] ++ []).
      apply ran_bind; [exact Hdel |]. unfold delFrom in Eerr |- *. rewrite Eerr.
      apply ran_ret.
Qed.

Lemma removeAttempts_ran (srcNet : IPNet) (attempts : nat) (w : World K) :
  exists cs,
    ran (removeAttempts attempts srcNet) w cs
    /\ removalOnly srcNet cs
    /\ (listings cs <= attempts)%nat.
Proof.
  revert w; induction attempts as [|k IH]; intros w.
  - exists []. split; [apply ran_ret |]. split; [constructor | reflexivity].
  - simpl removeAttempts.
    pose proof (ran_execCommand ipRuleShow w) as Hshow.
    destruct (snd (fst (execCommand ipRuleShow w))) as [e|] eqn:Eerr.
    + exists ([ipRuleShow] ++ ([] ++ [])). split; [| split].
      * apply ran_bind; [exact Hshow |]. rewrite Eerr.
        apply ran_bind; [apply ran_logAt | apply ran_ret].
      * repeat constructor.
      * simpl. unfold listings. simpl. lia.
    + destruct (removeFirstRule_ran srcNet
                  (Split (fst (fst (execCommand ipRuleShow w))) newline)
                  (snd (execCommand ipRuleShow w))) as [n Hn].
      destruct (fst (removeFirstRule srcNet
                       (Split (fst (fst (execCommand ipRuleShow w))) newline)
                       (snd (execCommand ipRuleShow w)))) eqn:Efound.
      * destruct (IH (snd (removeFirstRule srcNet
                             (Split (fst (fst (execCommand ipRuleShow w))) newline)
                             (snd (execCommand ipRuleShow w)))))
          as (cs & Hcs & Hrem & Hcount).
        exists ([ipRuleShow] ++ (repeat (delFrom srcNet) n ++ cs)).
        split; [| split].
        -- apply ran_bind; [exact Hshow |]. rewrite Eerr.
           apply ran_bind; [exact Hn |]. rewrite Efound. exact Hcs.
        -- apply Forall_app. split; [repeat constructor |].
           apply Forall_app. split; [apply removalOnly_delFrom | exact Hrem].
        -- rewrite !listings_app, listings_delFrom.
           exact (le_n_S _ _ Hcount).
      * exists ([ipRuleShow] ++ (repeat (delFrom srcNet) n ++ [])).
        split; [| split].
        -- apply ran_bind; [exact Hshow |]. rewrite Eerr.
           apply ran_bind; [exact Hn |]. rewrite Efound. apply ran_ret.
        -- apply Forall_app. split; [repeat constructor |].
           apply Forall_app. split; [apply removalOnly_delFrom | constructor].
        -- rewrite !listings_app, listings_delFrom.
           apply le_n_S, Nat.le_0_l.
Qed.

Lemma clearConntrack_ran (srcNet : IPNet) (w : World K) :
  ran (clearConntrack srcNet) w [flushConntrack srcNet]
  /\ fst (clearConntrack srcNet w) = None.
Proof.
  unfold clearConntrack. split.
  - change [flushConntrack srcNet] with ([flushConntrack srcNet] ++ []).
    apply ran_bind; [apply ran_execCommand | apply ran_ret].
  - rewrite bind_run. reflexivity.
Qed.

Lemma addRoutingRule_ran (srcNet : IPNet) (tableID : Z) (w : World K) :
  match fst (addRoutingRule srcNet tableID w) with
  | None => ran (addRoutingRule srcNet tableID) w
                [addRule srcNet tableID; flushConntrack srcNet]
  | Some _ => ran (addRoutingRule srcNet tableID) w [addRule srcNet tableID]
  end.
Proof.
  unfold addRoutingRule.
  pose proof (ran_execCommand (addRule srcNet tableID) w) as Hadd.
  rewrite bind_run. fold (addRule srcNet tableID).
  destruct (snd (fst (execCommand (addRule srcNet tableID) w))) as [e|] eqn:Eerr.
  - rewrite !bind_run. cbn [fst ret].
    change [addRule srcNet tableID] with ([addRule srcNet tableID] ++ ([] ++ ([] ++ []))).
    apply ran_bind; [exact Hadd |]. rewrite Eerr.
    apply ran_bind; [apply ran_logAt |].
    apply ran_bind; [apply ran_logAt | apply ran_ret].
  - rewrite !bind_run. cbn [fst ret].
    change [addRule srcNet tableID; flushConntrack srcNet]
      with ([addRule srcNet tableID] ++ ([flushConntrack srcNet] ++ ([] ++ []))).
    apply ran_bind; [exact Hadd |]. rewrite Eerr.
    apply ran_bind; [apply clearConntrack_ran |].
    apply ran_bind; [apply ran_whenErr | apply ran_ret].
Qed.

End Traces.

(** X8. [removeAllRulesForSource] is bounded and only removes by source:
    on any host, even one whose listing never changes, it lists the rules
    at most ten times, and every other command it runs is
    [ip rule del from] the source network; it never deletes by priority
    and never adds a rule. *)
Theorem removeAllRulesForSource_bounded
        {K : Type} {P : Platform K} (srcNet : IPNet) (w : World K) :
  let cs := newCalls w (snd (removeAllRulesForSource srcNet w)) in
  calls (snd (removeAllRulesForSource srcNet w)) = calls w ++ cs
  /\ removalOnly srcNet cs
  /\ (listings cs <= 10)%nat.
Proof.
  intros cs. unfold cs, removeAllRulesForSource.
  destruct (removeAttempts_ran srcNet maxAttempts w) as (cs' & Hran & Hrem & Hcount).
  rewrite (ran_newCalls _ w cs' Hran). split; [exact Hran |]. split; assumption.
Qed.

Section SetupTraces.

Context {K : Type} {P : Platform K}.

Lemma checkRoutingRuleExists_ran (srcNet : IPNet) (w : World K) :
  ran (checkRoutingRuleExists srcNet) w [ipRuleShow].
Proof.
  unfold checkRoutingRuleExists.
  change [ipRuleShow] with ([ipRuleShow] ++ ([] ++ [])).
  apply ran_bind; [apply ran_execCommand |].
  destruct (snd (fst (execCommand ipRuleShow w))).
  - apply ran_bind; [apply ran_logAt | apply ran_ret].
  - apply (ran_ret _ _).
Qed.

Lemma SetupPolicy_enabled_run (policy : RoutingPolicy.t) (provider : InternetProvider.t)
      (srcNet : IPNet) (w : World K) :
  RoutingPolicy.Enabled policy = true ->
  sourceNetwork (RoutingPolicy.ID policy) = Some srcNet ->
  exists removal tail,
    ran (SetupPolicy policy provider) w (ipRuleShow :: removal ++ tail)
    /\ removalOnly srcNet removal
    /\ (listings removal <= 10)%nat
    /\ match fst (SetupPolicy policy provider w) with
       | None =>
           tail = []
           \/ tail = [addRule srcNet (InternetProvider.TableID provider);
                      flushConntrack srcNet]
       | Some _ =>
           tail = [] \/ tail = [addRule srcNet (InternetProvider.TableID provider)]
       end.
Proof.
  intros Hen Hsrc. unfold SetupPolicy. rewrite Hen, Hsrc.
  change (negb true) with false. cbv iota zeta.
  remember (bind (addRoutingRule srcNet (InternetProvider.TableID provider))
                 (fun err =>
                    match err with
                    | Some e =>
                        ret (Some ("failed to add routing rule for policy "
                                   +:+ RoutingPolicy.Name policy +:+ ": " +:+ e))
                    | None => ret None
                    end)) as add eqn:Eadd.
  pose proof (checkRoutingRuleExists_ran srcNet w) as Hcheck.
  unfold ran in *. rewrite bind_run.
  set (w1 := snd (checkRoutingRuleExists srcNet w)) in *.
  destruct (fst (checkRoutingRuleExists srcNet w)) as [[found priority] existingTable].
  assert (Hadd : forall w0 : World K,
             exists tail,
               calls (snd (add w0)) = calls w0 ++ tail
               /\ match fst (add w0) with
                  | None => tail = []
                            \/ tail = [addRule srcNet (InternetProvider.TableID provider);
                                       flushConntrack srcNet]
                  | Some _ => tail = []
                              \/ tail = [addRule srcNet (InternetProvider.TableID provider)]
                  end).
  { intros w0.
    rewrite Eadd, !bind_run.
    pose proof (addRoutingRule_ran srcNet (InternetProvider.TableID provider) w0) as H.
    unfold ran in H.
    destruct (fst (addRoutingRule srcNet (InternetProvider.TableID provider) w0));
      simpl; eexists; (split; [exact H | right; reflexivity]). }
  destruct found.
  - destruct (existingTable =? InternetProvider.TableID provider).
    + exists [], []. simpl. rewrite Hcheck.
      split; [reflexivity |]. split; [constructor |]. split; [apply Nat.le_0_l | left; reflexivity].
    + rewrite bind_run.
      destruct (removeAttempts_ran srcNet maxAttempts w1) as (cs & Hcs & Hrem & Hcount).
      unfold ran in Hcs. fold (removeAllRulesForSource srcNet) in Hcs.
      destruct (fst (removeAllRulesForSource srcNet w1)) as [e|].
      * exists cs, []. simpl. rewrite Hcs, Hcheck, app_nil_r, <- app_assoc.
        split; [reflexivity |]. split; [exact Hrem |]. split; [exact Hcount | left; reflexivity].
      * destruct (Hadd (snd (removeAllRulesForSource srcNet w1))) as (tail & Htail & Hres).
        exists cs, tail.
        split; [| split; [exact Hrem | split; [exact Hcount | exact Hres]]].
        etransitivity; [exact Htail |].
        rewrite Hcs, Hcheck, <- !app_assoc. reflexivity.
  - destruct (Hadd w1) as (tail & Htail & Hres).
    exists [], tail.
    split; [| split; [constructor | split; [apply Nat.le_0_l | exact Hres]]].
    etransitivity; [exact Htail |].
    rewrite Hcheck, <- app_assoc. reflexivity.
Qed.

Lemma SetupPolicy_disabled_run (policy : RoutingPolicy.t) (provider : InternetProvider.t)
      (srcNet : IPNet) (w : World K) :
  RoutingPolicy.Enabled policy = false ->
  sourceNetwork (RoutingPolicy.ID policy) = Some srcNet ->
  exists removal,
    ran (SetupPolicy policy provider) w (removal ++ [flushConntrack srcNet])
    /\ removalOnly srcNet removal
    /\ (listings removal <= 10)%nat
    /\ fst (SetupPolicy policy provider w) = None.
Proof.
  intros Hen Hsrc. unfold SetupPolicy. rewrite Hen, Hsrc.
  change (negb false) with true. cbv iota.
  destruct (removeAttempts_ran srcNet maxAttempts w) as (cs & Hcs & Hrem & Hcount).
  fold (removeAllRulesForSource srcNet) in Hcs.
  exists cs. split; [| split; [exact Hrem | split; [exact Hcount |]]].
  - change (cs ++ [flushConntrack srcNet])
      with (cs ++ ([] ++ ([flushConntrack srcNet] ++ ([] ++ [])))).
    apply ran_bind; [exact Hcs |].
    apply ran_bind; [apply ran_whenErr |].
    apply ran_bind; [apply clearConntrack_ran |].
    apply ran_bind; [apply ran_whenErr | apply ran_ret].
  - rewrite !bind_run. reflexivity.
Qed.

End SetupTraces.

(** X9. Reconciling a disabled policy never adds a rule and never deletes by
    priority: it lists the rules at most ten times, deletes only by the
    policy's source network, always ends with the connection-tracking flush
    of that network, and returns [nil] whatever the host answered. *)
Theorem SetupPolicy_disabled_never_adds
        {K : Type} {P : Platform K}
        (policy : RoutingPolicy.t) (provider : InternetProvider.t)
        (srcNet : IPNet) (w : World K) :
  RoutingPolicy.Enabled policy = false ->
  sourceNetwork (RoutingPolicy.ID policy) = Some srcNet ->
  exists removal,
    newCalls w (snd (SetupPolicy policy provider w)) = removal ++ [flushConntrack srcNet]
    /\ removalOnly srcNet removal
    /\ (listings removal <= 10)%nat
    /\ fst (SetupPolicy policy provider w) = None.
Proof.
  intros Hen Hsrc.
  destruct (SetupPolicy_disabled_run policy provider srcNet w Hen Hsrc)
    as (removal & Hran & Hrest).
  exists removal. split; [exact (ran_newCalls _ w _ Hran) | exact Hrest].
Qed.

Lemma SetupPolicy_disabled_never_adds_witness :
  let policy := RoutingPolicy.mk "10.0.0.1" "printer" "starlink" "" false 0 0 in
  let provider := InternetProvider.mk "starlink" "Starlink" "eth1" 42 "192.0.2.1" "" 0 0 in
  let srcNet := mkIPNet [0; 0; 0; 0; 0; 0; 0; 0; 0; 0; 255; 255; 10; 0; 0; 1]
                        [255; 255; 255; 255] in
  let w := linux.start (linux.mkRule 2000 "10.0.0.1" "42" :: linux.defaults) in
  RoutingPolicy.Enabled policy = false
  /\ sourceNetwork (RoutingPolicy.ID policy) = Some srcNet
  /\ fst (SetupPolicy policy provider w) = None.
Proof.
  intros policy provider srcNet w.
  assert (Hen : RoutingPolicy.Enabled policy = false) by reflexivity.
  assert (Hsrc : sourceNetwork (RoutingPolicy.ID policy) = Some srcNet)
    by (vm_compute; reflexivity).
  split; [exact Hen |]. split; [exact Hsrc |].
  destruct (SetupPolicy_disabled_never_adds policy provider srcNet w Hen Hsrc)
    as (removal & _ & _ & _ & Hnil).
  exact Hnil.
Defined.

(** X10. Reconciling an enabled policy starts with one listing, removes, if
    at all, only by the policy's source network (never by priority, with
    at most ten further listings), and adds at most one rule, at the
    priority computed from the prefix length and with the provider's
    table. The connection tracking is flushed only after an add that
    succeeded; when the add fails, an error is returned and nothing is
    flushed. *)
Theorem SetupPolicy_enabled_adds_at_most_once
        {K : Type} {P : Platform K}
        (policy : RoutingPolicy.t) (provider : InternetProvider.t)
        (srcNet : IPNet) (w : World K) :
  RoutingPolicy.Enabled policy = true ->
  sourceNetwork (RoutingPolicy.ID policy) = Some srcNet ->
  exists removal tail,
    newCalls w (snd (SetupPolicy policy provider w)) = ipRuleShow :: removal ++ tail
    /\ removalOnly srcNet removal
    /\ (listings removal <= 10)%nat
    /\ match fst (SetupPolicy policy provider w) with
       | None =>
           tail = []
           \/ tail = [addRule srcNet (InternetProvider.TableID provider);
                      flushConntrack srcNet]
       | Some _ =>
           tail = [] \/ tail = [addRule srcNet (InternetProvider.TableID provider)]
       end.
Proof.
  intros Hen Hsrc.
  destruct (SetupPolicy_enabled_run policy provider srcNet w Hen Hsrc)
    as (removal & tail & Hran & Hrest).
  exists removal, tail. split; [exact (ran_newCalls _ w _ Hran) | exact Hrest].
Qed.

Lemma SetupPolicy_enabled_adds_at_most_once_witness :
  let policy := RoutingPolicy.mk "10.0.0.0/24" "office" "starlink" "" true 0 0 in
  let provider := InternetProvider.mk "starlink" "Starlink" "eth1" 42 "192.0.2.1" "" 0 0 in
  let srcNet := mkIPNet [10; 0; 0; 0] [255; 255; 255; 0] in
  let w := linux.start (linux.mkRule 2008 "10.0.0.0/24" "99" :: linux.defaults) in
  RoutingPolicy.Enabled policy = true
  /\ sourceNetwork (RoutingPolicy.ID policy) = Some srcNet
  /\ exists removal tail,
       newCalls w (snd (SetupPolicy policy provider w)) = ipRuleShow :: removal ++ tail
       /\ removalOnly srcNet removal.
Proof.
  intros policy provider srcNet w.
  assert (Hen : RoutingPolicy.Enabled policy = true) by reflexivity.
  assert (Hsrc : sourceNetwork (RoutingPolicy.ID policy) = Some srcNet)
    by (vm_compute; reflexivity).
  split; [exact Hen |]. split; [exact Hsrc |].
  destruct (SetupPolicy_enabled_adds_at_most_once policy provider srcNet w Hen Hsrc)
    as (removal & tail & Hcalls & Hrem & _).
  exists removal, tail. split; assumption.
Defined.

(** ** The removal of a policy and the cleanup passes *)

(** X11. [RemovePolicy] runs at most one rule deletion and never adds a
    rule. A policy ID that does not parse gives an error before any
    command. Otherwise the rules are listed once; when the existence check
    reports no rule nothing else is run and the result is [nil]; when it
    reports one, the rule is deleted by the priority the check read off
    the first matching line, whatever that priority is, and the connection
    tracking is flushed only if that deletion succeeded. *)
Theorem RemovePolicy_single_delete
        {K : Type} {P : Platform K}
        (policy : RoutingPolicy.t) (provider : InternetProvider.t) (w : World K) :
  match sourceNetwork (RoutingPolicy.ID policy) with
  | None =>
      RemovePolicy policy provider w
      = (Some ("invalid policy ID as source IP/CIDR: " +:+ RoutingPolicy.ID policy), w)
  | Some srcNet =>
      let check := fst (checkRoutingRuleExists srcNet w) in
      let priority := snd (fst check) in
      let cs := newCalls w (snd (RemovePolicy policy provider w)) in
      if fst (fst check) then
        match fst (RemovePolicy policy provider w) with
        | None => cs = [ipRuleShow; delPriority priority; flushConntrack srcNet]
        | Some _ => cs = [ipRuleShow; delPriority priority]
        end
      else cs = [ipRuleShow] /\ fst (RemovePolicy policy provider w) = None
  end.
Proof.
  unfold RemovePolicy.
  destruct (sourceNetwork (RoutingPolicy.ID policy)) as [srcNet|]; [| reflexivity].
  cbv zeta. rewrite !bind_run. unfold removeRoutingRule. rewrite !bind_run.
  pose proof (checkRoutingRuleExists_ran srcNet w) as Hcheck. unfold ran in Hcheck.
  destruct (fst (checkRoutingRuleExists srcNet w)) as [[found priority] table].
  cbn [fst snd]. destruct found; cbn [negb].
  - rewrite !bind_run.
    pose proof (ran_execCommand (delPriority priority)
                  (snd (checkRoutingRuleExists srcNet w))) as Hdel.
    unfold ran, delPriority in Hdel.
    destruct (snd (fst (execCommand ["ip"; "rule"; "del"; "priority"; Itoa priority]
                          (snd (checkRoutingRuleExists srcNet w))))) as [e|].
    + rewrite !bind_run. cbn [fst snd ret logAt calls].
      apply newCalls_app. rewrite Hdel, Hcheck, <- app_assoc. reflexivity.
    + rewrite !bind_run.
      destruct (clearConntrack_ran srcNet
                  (snd (execCommand ["ip"; "rule"; "del"; "priority"; Itoa priority]
                          (snd (checkRoutingRuleExists srcNet w))))) as [Hflush Hnil].
      unfold ran in Hflush. rewrite Hnil. cbn [fst snd ret whenErr calls].
      apply newCalls_app. rewrite Hflush, Hdel, Hcheck, <- !app_assoc. reflexivity.
  - cbn [fst snd ret]. split; [| reflexivity].
    apply newCalls_app. exact Hcheck.
Qed.

Section CleanupTraces.

Context {K : Type} {P : Platform K}.

Lemma managedPriorities_cons (l : string) (ls : list string) :
  managedPriorities (l :: ls)
  = match managedLine l with
    | Some (_, _, priority) => [priority]
    | None => []
    end ++ managedPriorities ls.
Proof.
  unfold managedPriorities. simpl.
  destruct (managedLine l) as [[[line parts] priority]|]; reflexivity.
Qed.

Lemma forEach_cleanupAllStep_ran (lines : list string) (w : World K) :
  ran (forEach cleanupAllStep lines) w (map delPriority (managedPriorities lines)).
Proof.
  revert w; induction lines as [|l ls IH]; intros w.
  - apply ran_ret.
  - rewrite managedPriorities_cons, map_app. simpl forEach.
    apply ran_bind; [| apply IH].
    unfold cleanupAllStep.
    destruct (managedLine l) as [[[line parts] priority]|].
    + change (map delPriority [priority]) with ([delPriority priority] ++ []).
      apply ran_bind; [apply ran_execCommand | apply ran_whenErr].
    + apply ran_ret.
Qed.

Lemma managedPriorities_range (lines : list string) :
  Forall (fun priority => 2000 <= priority <= 2032) (managedPriorities lines).
Proof.
  induction lines as [|l ls IH]; [constructor |].
  rewrite managedPriorities_cons.
  destruct (managedLine l) as [[[line parts] priority]|] eqn:El; simpl; [| exact IH].
  constructor; [exact (managedLine_range l line parts priority El) | exact IH].
Qed.

Lemma reportRules_ran (rules : list string) (i : Z) (w : World K) :
  ran (reportRules i rules) w [] /\ host (snd (reportRules i rules w)) = host w.
Proof.
  destruct (reportRules_quiet rules i w) as [Hh Hc]. split; [exact Hc | exact Hh].
Qed.

Lemma reportViolations_ran (groups : list (string * list string)) (v : Z) (w : World K) :
  ran (reportViolations groups v) w []
  /\ host (snd (reportViolations groups v w)) = host w.
Proof.
  destruct (reportViolations_quiet groups v w) as [Hh Hc]. split; [exact Hc | exact Hh].
Qed.

End CleanupTraces.

(** X12. [CleanupAllRules], the teardown run at shutdown, lists the rules
    once and then runs one [ip rule del priority P] for each line, in
    listing order, whose first field parses to a priority in [2000, 2032],
    and nothing else: it never names a priority outside the managed range.
    It returns the error of the listing, after which it runs nothing. *)
Theorem CleanupAllRules_deletes_managed_range
        {K : Type} {P : Platform K} (w : World K) :
  let listing := fst (exec ipRuleShow (host w)) in
  let managed :=
    match snd listing with
    | None => managedPriorities (Split (fst listing) newline)
    | Some _ => []
    end in
  newCalls w (snd (CleanupAllRules w)) = ipRuleShow :: map delPriority managed
  /\ Forall (fun priority => 2000 <= priority <= 2032) managed
  /\ fst (CleanupAllRules w) = snd listing.
Proof.
  intros listing managed. unfold CleanupAllRules.
  rewrite !bind_run, execCommand_run. cbn [fst snd]. fold listing.
  unfold managed. destruct (snd listing) as [e|].
  - rewrite !bind_run. cbn [fst snd ret logAt].
    split; [apply newCalls_app; reflexivity |]. split; [constructor | reflexivity].
  - rewrite !bind_run. cbn [fst snd ret].
    split; [| split; [apply managedPriorities_range | reflexivity]].
    apply newCalls_app.
    rewrite (forEach_cleanupAllStep_ran (Split (fst listing) newline)). simpl.
    rewrite <- app_assoc. reflexivity.
Qed.

(** X13. The validation pass is diagnostic only: whatever the listing
    shows, [validateSingleRulePerSource] runs exactly one command, the
    listing, so the host is where the listing left it, and it returns the
    error of the listing. *)
Theorem validateSingleRulePerSource_only_lists
        {K : Type} {P : Platform K} (w : World K) :
  newCalls w (snd (validateSingleRulePerSource w)) = [ipRuleShow]
  /\ host (snd (validateSingleRulePerSource w)) = snd (exec ipRuleShow (host w))
  /\ fst (validateSingleRulePerSource w) = snd (fst (exec ipRuleShow (host w))).
Proof.
  unfold validateSingleRulePerSource.
  rewrite !bind_run, execCommand_run. cbn [fst snd].
  destruct (snd (fst (exec ipRuleShow (host w)))) as [e|].
  - rewrite !bind_run. cbn [fst snd ret logAt host].
    split; [apply newCalls_app; reflexivity |]. split; reflexivity.
  - rewrite !bind_run.
    match goal with
    | |- context [reportViolations ?g 0 ?w1] =>
        pose proof (reportViolations_quiet g 0 w1) as [Hh Hc];
        destruct (reportViolations g 0 w1) as [v w2]
    end.
    cbn [fst snd host calls repeat] in Hh, Hc. rewrite app_nil_r in Hc.
    cbn [fst snd].
    destruct (0 <? v); cbn [fst snd ret logAt host calls];
      (split; [apply newCalls_app; exact Hc |]); (split; [exact Hh | reflexivity]).
Qed.

Section DuplicateCleanup.

Context {K : Type} {P : Platform K}.

Lemma managedLine_stored (rawLine line : string) (parts : list string) (priority : Z) :
  managedLine rawLine = Some (line, parts, priority) -> storedRule line.
Proof.
  intros H. pose proof (managedLine_range rawLine line parts priority H) as Hrange.
  unfold managedLine in H.
  destruct (isEmpty (TrimSpace rawLine)); [discriminate |].
  destruct (length (Fields (TrimSpace rawLine)) =? 0)%nat eqn:Hlen; [discriminate |].
  destruct (Atoi (TrimSuffix (hd "" (Fields (TrimSpace rawLine))) ":")) as [p ok] eqn:Ha.
  destruct (negb ok); [discriminate |].
  destruct (negb (inManagedRange p)); [discriminate |].
  injection H as <- <- <-. unfold storedRule, rulePriority. rewrite Ha. split.
  - apply Nat.eqb_neq in Hlen. apply Nat.leb_le. lia.
  - exact Hrange.
Qed.

Lemma appendRule_stored (sourceRules : list (string * list string))
      (srcIP line : string) :
  Forall (fun entry => Forall storedRule (snd entry)) sourceRules ->
  storedRule line ->
  Forall (fun entry => Forall storedRule (snd entry)) (appendRule sourceRules srcIP line).
Proof.
  intros Hall Hline. induction sourceRules as [|[k rules] rest IH]; simpl.
  - constructor; [| constructor]. simpl. constructor; [exact Hline | constructor].
  - apply Forall_cons in Hall as [Hrules Hrest].
    destruct (String.eqb k srcIP).
    + constructor; [| exact Hrest]. simpl. apply Forall_app. split; [exact Hrules |].
      constructor; [exact Hline | constructor].
    + constructor; [exact Hrules | apply IH, Hrest].
Qed.

Lemma groupRules_stored (ignoreAll : bool) (lines : list string) :
  Forall (fun entry => Forall storedRule (snd entry)) (groupRules ignoreAll lines).
Proof.
  unfold groupRules.
  assert (H : forall acc,
             Forall (fun entry => Forall storedRule (snd entry)) acc ->
             Forall (fun entry => Forall storedRule (snd entry))
                    (foldl (groupStep ignoreAll) acc lines)).
  { induction lines as [|l ls IH]; intros acc Hacc; [exact Hacc |].
    simpl. apply IH. unfold groupStep.
    destruct (managedLine l) as [[[line parts] priority]|] eqn:El; [| exact Hacc].
    destruct (Contains line "from" && Contains line "lookup"); [| exact Hacc].
    destruct (sourceAfterFrom parts) as [srcIP|]; [| exact Hacc].
    destruct (ignoreAll && String.eqb srcIP "all"); [exact Hacc |].
    apply appendRule_stored; [exact Hacc |].
    exact (managedLine_stored l line parts priority El). }
  apply H. constructor.
Qed.

Lemma forEach_removeDuplicate_ran (rules : list string) (w : World K) :
  Forall storedRule rules ->
  ran (forEach removeDuplicate rules) w (map delPriority (map rulePriority rules)).
Proof.
  revert w; induction rules as [|r rs IH]; intros w Hall.
  - apply ran_ret.
  - apply Forall_cons in Hall as [[Hfields _] Hrs].
    simpl forEach.
    change (map delPriority (map rulePriority (r :: rs)))
      with (([delPriority (rulePriority r)] ++ [])
              ++ map delPriority (map rulePriority rs)).
    apply ran_bind; [| apply IH, Hrs].
    unfold removeDuplicate. rewrite Hfields.
    apply ran_bind; [apply ran_execCommand | apply ran_whenErr].
Qed.

Lemma dedupGroup_ran (entry : string * list string) (w : World K) :
  Forall storedRule (snd entry) ->
  ran (dedupGroup entry) w (map delPriority (map rulePriority (tail (snd entry)))).
Proof.
  intros Hall. unfold dedupGroup.
  destruct (snd entry) as [|r0 [|r1 rs]] eqn:Erules; simpl; try apply ran_ret.
  apply Forall_cons in Hall as [_ Hrest].
  exact (forEach_removeDuplicate_ran (r1 :: rs) w Hrest).
Qed.

Lemma forEach_dedupGroup_ran (groups : list (string * list string)) (w : World K) :
  Forall (fun entry => Forall storedRule (snd entry)) groups ->
  ran (forEach dedupGroup groups) w (map delPriority (duplicatePriorities groups)).
Proof.
  revert w; induction groups as [|g gs IH]; intros w Hall.
  - apply ran_ret.
  - apply Forall_cons in Hall as [Hg Hgs].
    simpl forEach. unfold duplicatePriorities. simpl. rewrite map_app.
    apply ran_bind; [apply dedupGroup_ran, Hg | apply IH, Hgs].
Qed.

Lemma duplicatePriorities_range (groups : list (string * list string)) :
  Forall (fun entry => Forall storedRule (snd entry)) groups ->
  Forall (fun priority => 2000 <= priority <= 2032) (duplicatePriorities groups).
Proof.
  induction groups as [|g gs IH]; intros Hall; [constructor |].
  apply Forall_cons in Hall as [Hg Hgs].
  unfold duplicatePriorities. simpl. apply Forall_app. split; [| apply IH, Hgs].
  destruct (snd g) as [|r0 rs]; [constructor |].
  apply Forall_cons in Hg as [_ Hrs]. simpl.
  induction rs as [|r rs IHrs]; [constructor |].
  apply Forall_cons in Hrs as [[_ Hr] Hrs']. constructor; [exact Hr | apply IHrs, Hrs'].
Qed.

End DuplicateCleanup.

(** X14. The duplicate cleanup only deletes inside the managed range, in
    whatever order the groups are visited: after the listing it runs one
    [ip rule del priority P] for each rule that follows the first rule of
    its source, with the priority read off that rule, which lies in
    [2000, 2032], and nothing else. When the listing fails it runs
    nothing more and returns that error. *)
Theorem cleanupDuplicateRules_deletes_in_range
        {K : Type} {P : Platform K} (w : World K) :
  let listing := fst (exec ipRuleShow (host w)) in
  let groups := rangeOrder (groupRules false (Split (fst listing) newline)) in
  let duplicates :=
    match snd listing with
    | None => duplicatePriorities groups
    | Some _ => []
    end in
  newCalls w (snd (cleanupDuplicateRules w)) = ipRuleShow :: map delPriority duplicates
  /\ Forall (fun priority => 2000 <= priority <= 2032) duplicates
  /\ fst (cleanupDuplicateRules w) = snd listing.
Proof.
  intros listing groups duplicates. unfold cleanupDuplicateRules.
  rewrite !bind_run, execCommand_run. cbn [fst snd]. fold listing.
  unfold duplicates. destruct (snd listing) as [e|].
  - rewrite !bind_run. cbn [fst snd ret logAt].
    split; [apply newCalls_app; reflexivity |]. split; [constructor | reflexivity].
  - assert (Hstored : Forall (fun entry => Forall storedRule (snd entry)) groups).
    { unfold groups. rewrite rangeOrder_perm. apply groupRules_stored. }
    rewrite !bind_run. cbn [fst snd ret].
    split; [| split; [apply duplicatePriorities_range, Hstored | reflexivity]].
    apply newCalls_app. fold groups.
    rewrite (forEach_dedupGroup_ran groups _ Hstored). simpl.
    rewrite <- app_assoc. reflexivity.
Qed.

(** ** Priorities of resolved sources *)

Lemma CIDRMask_length_128 (n : Z) :
  0 <= n <= 128 -> length (CIDRMask n 128) = 16%nat.
Proof.
  intros Hn. unfold CIDRMask.
  replace (negb (128 =? 32) && negb (128 =? 128)) with false by reflexivity.
  destruct ((n <? 0) || (128 <? n)) eqn:G.
  { apply orb_true_iff in G as [G | G]; apply Z.ltb_lt in G; lia. }
  rewrite length_map, length_seq. reflexivity.
Qed.

(** X15. Every source network that the engine resolves from a policy ID
    with a four-byte mask, that is from IPv4 CIDR notation or from a single
    address, gets a rule priority in the managed range [2000, 2032]; a
    single address, which is not CIDR notation, always gets 2000. *)
Theorem sourceNetwork_priority_in_range (id : string) (srcNet : IPNet) :
  sourceNetwork id = Some srcNet ->
  length (IPNet_Mask srcNet) = 4%nat ->
  2000 <= calculatePriority srcNet <= 2032
  /\ (is_Some (ParseCIDR id) \/ calculatePriority srcNet = 2000).
Proof.
  intros Hsrc Hlen. unfold sourceNetwork in Hsrc.
  destruct (ParseCIDR id) as [ipnet|] eqn:Ecidr.
  - injection Hsrc as ->. split; [| left; eauto].
    unfold ParseCIDR in Ecidr.
    destruct (cutAt _ id "") as [[addr mask]|]; [| discriminate].
    destruct (ParseAddr addr) as [ipAddr|]; [| discriminate].
    destruct (negb (isEmpty (Zone ipAddr))); [discriminate |].
    destruct (dtoi mask) as [[n i] ok].
    destruct (negb ok || negb (i =? Z.of_nat (String.length mask)) || (n <? 0)
              || (BitLen ipAddr <? n)) eqn:G; [discriminate |].
    apply orb_false_iff in G as [G Hhi]. apply orb_false_iff in G as [_ Hlo].
    apply Z.ltb_ge in Hhi, Hlo.
    injection Ecidr as <-. simpl in Hlen. rewrite calculatePriority_ones. simpl IPNet_Mask.
    destruct ipAddr as [b | b zone]; simpl in Hhi, Hlen |- *.
    + rewrite (Size_CIDRMask n) by lia. lia.
    + rewrite CIDRMask_length_128 in Hlen by lia. discriminate.
  - destruct (ParseIP id) as [srcIP|]; [| discriminate].
    injection Hsrc as <-. split; [| right]; vm_compute; try reflexivity.
    split; discriminate.
Qed.

Lemma sourceNetwork_priority_in_range_witness :
  let srcNet := mkIPNet [10; 0; 0; 0] [255; 255; 255; 0] in
  sourceNetwork "10.0.0.0/24" = Some srcNet
  /\ length (IPNet_Mask srcNet) = 4%nat
  /\ 2000 <= calculatePriority srcNet <= 2032.
Proof.
  intros srcNet.
  assert (Hsrc : sourceNetwork "10.0.0.0/24" = Some srcNet) by (vm_compute; reflexivity).
  assert (Hlen : length (IPNet_Mask srcNet) = 4%nat) by reflexivity.
  split; [exact Hsrc |]. split; [exact Hlen |].
  exact (proj1 (sourceNetwork_priority_in_range "10.0.0.0/24" srcNet Hsrc Hlen)).
Defined.

(** ** Validation *)

(** X16. Validation accepts exactly the policies the engine can resolve: a
    policy passes [Validate] if and only if its name and provider ID are
    not empty and the engine's resolution of its ID to a source network
    succeeds, so a validated policy never meets the engine's "invalid
    policy ID" error. *)
Theorem Validate_iff_engine_resolves (p : RoutingPolicy.t) :
  models.Validate p = None
  <-> (RoutingPolicy.Name p <> ""
       /\ RoutingPolicy.ProviderID p <> ""
       /\ is_Some (sourceNetwork (RoutingPolicy.ID p))).
Proof.
  destruct p as [id name pid desc en c u]. unfold models.Validate, sourceNetwork. simpl.
  destruct (isEmpty id) eqn:Eid.
  - apply isEmpty_true in Eid; subst id. split; [discriminate |].
    intros (_ & _ & [x Hx]). vm_compute in Hx. discriminate.
  - destruct (isEmpty name) eqn:En.
    { apply isEmpty_true in En. split; [discriminate | tauto]. }
    destruct (isEmpty pid) eqn:Ep.
    { apply isEmpty_true in Ep. split; [discriminate | tauto]. }
    apply isEmpty_false in En, Ep.
    destruct (ParseCIDR id); [split; [intros _; repeat split; eauto | reflexivity] |].
    destruct (ParseIP id); [split; [intros _; repeat split; eauto | reflexivity] |].
    split; [discriminate |]. intros (_ & _ & [x Hx]). discriminate.
Qed.

(** X17. Provider validation accepts a provider if and only if its ID, name
    and interface are not empty, its table ID is positive and its gateway
    parses with [net.ParseIP], as an IPv4 or an IPv6 address; an empty
    gateway is among those that do not parse. *)
Theorem InternetProvider_Validate_accepts_iff (p : InternetProvider.t) :
  models.InternetProvider_Validate p = None
  <-> (InternetProvider.ID p <> ""
       /\ InternetProvider.Name p <> ""
       /\ InternetProvider.Interface p <> ""
       /\ 0 < InternetProvider.TableID p
       /\ is_Some (ParseIP (InternetProvider.Gateway p))).
Proof.
  destruct p as [id name iface table gw desc c u].
  unfold models.InternetProvider_Validate. simpl.
  destruct (isEmpty id) eqn:Eid.
  { apply isEmpty_true in Eid. split; [discriminate | tauto]. }
  destruct (isEmpty name) eqn:En.
  { apply isEmpty_true in En. split; [discriminate | tauto]. }
  destruct (isEmpty iface) eqn:Ei.
  { apply isEmpty_true in Ei. split; [discriminate | tauto]. }
  apply isEmpty_false in Eid, En, Ei.
  destruct (Z.leb_spec table 0) as [Ht | Ht].
  { split; [discriminate |]. intros (_ & _ & _ & H & _). lia. }
  destruct (isEmpty gw) eqn:Eg.
  { apply isEmpty_true in Eg; subst gw. split; [discriminate |].
    intros (_ & _ & _ & _ & [x Hx]). vm_compute in Hx. discriminate. }
  destruct (ParseIP gw) eqn:Egw.
  - split; [intros _; repeat split; eauto | reflexivity].
  - split; [discriminate |]. intros (_ & _ & _ & _ & [x Hx]). discriminate.
Qed.

(** ** The commands of a full-sync pass *)

Lemma providerMapOf_fold_Some (providers : list InternetProvider.t)
      (m : gmap string InternetProvider.t) (id : string) (provider : InternetProvider.t) :
  foldl (fun m provider => <[InternetProvider.ID provider := provider]> m) m providers !! id
  = Some provider ->
  m !! id = Some provider
  \/ (In provider providers /\ InternetProvider.ID provider = id).
Proof.
  revert m; induction providers as [|p ps IH]; intros m; simpl; [auto |].
  intros Hl. apply IH in Hl as [Hl | [Hin Hid]]; [| tauto].
  apply lookup_insert_Some in Hl as [[Hid <-] | [_ Hl]]; [| tauto].
  right. split; [left; reflexivity | exact Hid].
Qed.

Lemma providerMapOf_Some (providers : list InternetProvider.t) (id : string)
      (provider : InternetProvider.t) :
  providerMapOf providers !! id = Some provider ->
  In provider providers /\ InternetProvider.ID provider = id.
Proof.
  unfold providerMapOf. intros Hl.
  apply providerMapOf_fold_Some in Hl as [Hl | Hl]; [| exact Hl].
  rewrite lookup_empty in Hl. discriminate.
Qed.

Section PassCommands.

Context {K : Type} {P : Platform K}.

Variable Q : list string -> Prop.

Lemma ranWithin_ran {A} (m : M K A) (w : World K) (cs : list (list string)) :
  ran m w cs -> Forall Q cs -> ranWithin Q m w.
Proof. intros Hran Hall. exists cs. split; assumption. Qed.

Lemma ranWithin_ret {A} (a : A) (w : World K) : ranWithin Q (ret a) w.
Proof. apply (ranWithin_ran _ _ []); [apply ran_ret | constructor]. Qed.

Lemma ranWithin_bind {A B} (m : M K A) (k : A -> M K B) (w : World K) :
  ranWithin Q m w -> (forall a w', ranWithin Q (k a) w') -> ranWithin Q (bind m k) w.
Proof.
  intros (cs1 & Hran1 & Hall1) Hk.
  destruct (Hk (fst (m w)) (snd (m w))) as (cs2 & Hran2 & Hall2).
  exists (cs1 ++ cs2). split; [apply ran_bind; assumption | apply Forall_app; split; assumption].
Qed.

Lemma ranWithin_whenErr (err : error) (lv : Level) (f : string -> string) (w : World K) :
  ranWithin Q (whenErr err (fun e => logAt lv (f e))) w.
Proof. apply (ranWithin_ran _ _ []); [apply ran_whenErr | constructor]. Qed.

Lemma ranWithin_forEach {A} (f : A -> M K unit) (l : list A) (w : World K) :
  (forall a, In a l -> forall w', ranWithin Q (f a) w') ->
  ranWithin Q (forEach f l) w.
Proof.
  revert w; induction l as [|a l IH]; intros w Hf.
  - apply ranWithin_ret.
  - simpl forEach. apply ranWithin_bind; [apply Hf; left; reflexivity |].
    intros _ w'. apply IH. intros b Hb. apply Hf. right. exact Hb.
Qed.

End PassCommands.

Section PassVocabulary.

Context {K : Type} {P : Platform K}.

Variable policies : list RoutingPolicy.t.
Variable providers : list InternetProvider.t.

Lemma passCommand_show : passCommand policies providers ipRuleShow.
Proof. left. reflexivity. Qed.

Lemma passCommand_delPriorities (priorities : list Z) :
  Forall (fun priority => 2000 <= priority <= 2032) priorities ->
  Forall (passCommand policies providers) (map delPriority priorities).
Proof.
  intros Hall. apply Forall_map. eapply Forall_impl; [exact Hall |].
  intros priority Hp. right. left. exists priority. split; [exact Hp | reflexivity].
Qed.

Lemma passCommand_removal (policy : RoutingPolicy.t) (srcNet : IPNet)
      (cs : list (list string)) :
  In policy policies ->
  sourceNetwork (RoutingPolicy.ID policy) = Some srcNet ->
  removalOnly srcNet cs ->
  Forall (passCommand policies providers) cs.
Proof.
  intros Hin Hsrc Hrem. eapply Forall_impl; [exact Hrem |].
  intros argv [-> | ->]; [apply passCommand_show |].
  right. right. exists policy, srcNet. repeat split; auto.
Qed.

Lemma cleanupDuplicateRules_within (w : World K) :
  ranWithin (passCommand policies providers) cleanupDuplicateRules w.
Proof.
  unfold cleanupDuplicateRules.
  apply ranWithin_bind.
  { apply (ranWithin_ran _ _ _ _ (ran_execCommand ipRuleShow w)).
    constructor; [apply passCommand_show | constructor]. }
  intros r w'. destruct (snd r) as [e|].
  - apply ranWithin_bind; [| intros; apply ranWithin_ret].
    apply (ranWithin_ran _ _ _ _ (ran_logAt _ _ _)). constructor.
  - apply ranWithin_bind; [| intros; apply ranWithin_ret].
    assert (Hstored : Forall (fun entry => Forall storedRule (snd entry))
                             (rangeOrder (groupRules false (Split (fst r) newline)))).
    { rewrite rangeOrder_perm. apply groupRules_stored. }
    apply (ranWithin_ran _ _ _ _ (forEach_dedupGroup_ran _ w' Hstored)).
    apply passCommand_delPriorities, duplicatePriorities_range, Hstored.
Qed.

Lemma syncPolicy_within (policy : RoutingPolicy.t) (w : World K) :
  In policy policies ->
  ranWithin (passCommand policies providers) (syncPolicy (providerMapOf providers) policy) w.
Proof.
  intros Hin. unfold syncPolicy.
  destruct (providerMapOf providers !! RoutingPolicy.ProviderID policy)
    as [provider|] eqn:Elook.
  2: { apply (ranWithin_ran _ _ _ _ (ran_logAt _ _ _)). constructor. }
  apply providerMapOf_Some in Elook as [Hprov Hid].
  apply ranWithin_bind; [| intros; apply ranWithin_whenErr].
  destruct (sourceNetwork (RoutingPolicy.ID policy)) as [srcNet|] eqn:Esrc.
  2: { exists []. split; [| constructor]. unfold ran.
       rewrite (SetupPolicy_unparsable policy provider w Esrc). simpl.
       rewrite app_nil_r. reflexivity. }
  destruct (RoutingPolicy.Enabled policy) eqn:Een.
  - destruct (SetupPolicy_enabled_run policy provider srcNet w Een Esrc)
      as (removal & tail & Hran & Hrem & _ & Htail).
    apply (ranWithin_ran _ _ _ _ Hran).
    constructor; [apply passCommand_show |].
    apply Forall_app. split; [exact (passCommand_removal policy srcNet removal Hin Esrc Hrem) |].
    assert (Hadd : passCommand policies providers
                     (addRule srcNet (InternetProvider.TableID provider))).
    { right. right. exists policy, srcNet. repeat split; auto.
      right. right. exists provider. repeat split; auto. }
    assert (Hflush : passCommand policies providers (flushConntrack srcNet)).
    { right. right. exists policy, srcNet. repeat split; auto. }
    destruct (fst (SetupPolicy policy provider w));
      destruct Htail as [-> | ->];
      repeat (constructor; [assumption |]); constructor.
  - destruct (SetupPolicy_disabled_run policy provider srcNet w Een Esrc)
      as (removal & Hran & Hrem & _ & _).
    apply (ranWithin_ran _ _ _ _ Hran).
    apply Forall_app. split; [exact (passCommand_removal policy srcNet removal Hin Esrc Hrem) |].
    constructor; [| constructor].
    right. right. exists policy, srcNet. repeat split; auto.
Qed.

Lemma collectActiveSources_ran (activePolicies : list RoutingPolicy.t)
      (acc : gset string) (w : World K) :
  ran (collectActiveSources activePolicies acc) w [].
Proof.
  destruct (collectActiveSources_spec activePolicies acc w) as (_ & Hc & _).
  unfold ran. rewrite app_nil_r. exact Hc.
Qed.

Lemma cleanupStaleRules_within (activePolicies : list RoutingPolicy.t) (w : World K) :
  ranWithin (passCommand policies providers) (cleanupStaleRules activePolicies) w.
Proof.
  unfold cleanupStaleRules.
  apply ranWithin_bind.
  { apply (ranWithin_ran _ _ _ _ (ran_execCommand ipRuleShow w)).
    constructor; [apply passCommand_show | constructor]. }
  intros r w'. destruct (snd r) as [e|].
  - apply ranWithin_bind; [| intros; apply ranWithin_ret].
    apply (ranWithin_ran _ _ _ _ (ran_logAt _ _ _)). constructor.
  - exists (map delPriority (stalePriorities activePolicies (Split (fst r) newline))).
    split; [| apply passCommand_delPriorities, stalePriorities_range].
    unfold ran. rewrite !bind_run.
    destruct (collectActiveSources_spec activePolicies ∅ w') as (_ & Hc & Hm).
    cbn [fst snd ret].
    rewrite (forEach_staleStep_calls _ activePolicies).
    + rewrite Hc. reflexivity.
    + intros ip. rewrite Hm. split; [| auto].
      intros [Hin | H]; [| exact H]. apply elem_of_empty in Hin. destruct Hin.
Qed.

Lemma validateSingleRulePerSource_within (w : World K) :
  ranWithin (passCommand policies providers) validateSingleRulePerSource w.
Proof.
  unfold validateSingleRulePerSource.
  apply ranWithin_bind.
  { apply (ranWithin_ran _ _ _ _ (ran_execCommand ipRuleShow w)).
    constructor; [apply passCommand_show | constructor]. }
  intros r w'. destruct (snd r) as [e|].
  - apply ranWithin_bind; [| intros; apply ranWithin_ret].
    apply (ranWithin_ran _ _ _ _ (ran_logAt _ _ _)). constructor.
  - apply ranWithin_bind.
    { apply (ranWithin_ran _ _ _ []); [| constructor].
      apply reportViolations_ran. }
    intros v w''. apply ranWithin_bind; [| intros; apply ranWithin_ret].
    destruct (0 <? v).
    + apply (ranWithin_ran _ _ _ _ (ran_logAt _ _ _)). constructor.
    + apply ranWithin_ret.
Qed.

End PassVocabulary.

(** X18. A full-sync pass has a closed vocabulary of commands. Whatever
    the policies, the providers and the answers of the host, every command
    it runs is the rule listing, an [ip rule del priority P] with [P] in
    [2000, 2032], or, for the resolved source of one of the policies, an
    [ip rule del from] that source, the flush of its connection tracking,
    or the addition of its rule at the computed priority with the table of
    a provider that has the policy's provider ID. *)
Theorem SyncPolicies_command_vocabulary
        {K : Type} {P : Platform K}
        (policies : list RoutingPolicy.t) (providers : list InternetProvider.t)
        (w : World K) :
  let cs := newCalls w (snd (SyncPolicies policies providers w)) in
  calls (snd (SyncPolicies policies providers w)) = calls w ++ cs
  /\ Forall (passCommand policies providers) cs.
Proof.
  intros cs.
  assert (H : ranWithin (passCommand policies providers)
                        (SyncPolicies policies providers) w).
  { unfold SyncPolicies.
    apply ranWithin_bind; [apply cleanupDuplicateRules_within |].
    intros err1 w1. apply ranWithin_bind; [apply ranWithin_whenErr |].
    intros _ w2. apply ranWithin_bind.
    { apply ranWithin_forEach. intros policy Hin w'. apply syncPolicy_within, Hin. }
    intros _ w3. apply ranWithin_bind; [apply cleanupStaleRules_within |].
    intros err2 w4. apply ranWithin_bind; [apply ranWithin_whenErr |].
    intros _ w5. apply ranWithin_bind; [apply validateSingleRulePerSource_within |].
    intros err3 w6. apply ranWithin_bind; [apply ranWithin_whenErr |].
    intros _ w7. apply ranWithin_ret. }
  destruct H as (cs' & Hran & Hall).
  unfold cs. rewrite (ran_newCalls _ w cs' Hran). split; [exact Hran | exact Hall].
Qed.
